(** * convert-icons.py: the icon rasterizer script, embedded and verified

    The script [tools/convert-icons.py] imports the [cairosvg] binding,
    checks that [chat-icon.svg] exists next to the script, and renders it
    to [chat-icon-<size>.png] for each size of a fixed list.

    The script is pure glue around the interpreter and one library call, so
    the embedding has two layers:
    - the environment the script talks to (exceptions, [os.path] on POSIX
      path strings, a file store, the [import] statement, [print],
      [sys.exit], [cairosvg.svg2png]), written once as a small monad over
      the process state;
    - the script itself, [convert_icons], written statement by statement
      in that monad.

    Strings are byte strings: a Python [str] literal is represented by its
    UTF-8 encoding.

    What the script cannot control is a component of [host]: whether the
    dependencies load, whether standard output can encode a line, what
    the renderer's URL layer does with the [url=] string, what the
    renderer makes of the source, and whether writing an image stops
    midway. *)

From stdpp Require Import gmap strings list fin_maps pretty.
From Stdlib Require Import ZArith Ascii.

Local Open Scope Z_scope.

(** ** Exceptions and outcomes *)

(** The exception classes that matter to the script: the two classes named
    in its [except] clauses, the subclasses the interpreter, the file
    layer and the URL layer raise, and two classes outside both
    hierarchies: a failure of the renderer on its input, and a line that
    standard output cannot encode. *)
Inductive exn : Type :=
  | OSError
  | FileNotFoundError
  | IsADirectoryError
  | NotADirectoryError
  | PermissionError
  | URLError
  | ImportError
  | ModuleNotFoundError
  | ParseError
  | UnicodeEncodeError.

Global Instance exn_eq_dec : EqDecision exn.
Proof. solve_decision. Defined.

(** [isinstance(e, OSError)] *)
Definition is_OSError (e : exn) : bool :=
  match e with
  | OSError | FileNotFoundError | IsADirectoryError
  | NotADirectoryError | PermissionError | URLError => true
  | _ => false
  end.

(** [isinstance(e, ImportError)] *)
Definition is_ImportError (e : exn) : bool :=
  match e with
  | ImportError | ModuleNotFoundError => true
  | _ => false
  end.

(** How a statement ends: normally, with an exception in flight, or with
    [SystemExit(code)] in flight. *)
Inductive outcome (A : Type) : Type :=
  | Normal (a : A)
  | Raised (e : exn)
  | Exited (code : Z).
Global Arguments Normal {A} a.
Global Arguments Raised {A} e.
Global Arguments Exited {A} code.

(** The status the interpreter hands to the OS when the main module ends
    with outcome [o]: 0 after the last statement, the argument of
    [sys.exit], and 1 for an uncaught exception. *)
Definition exit_status (o : outcome unit) : Z :=
  match o with
  | Normal _ => 0
  | Raised _ => 1
  | Exited code => code
  end.

(** ** [os.path] on POSIX path strings *)

Module path.

Definition sep : ascii := "/"%char.

(** [p.startswith("/")] *)
Definition startswith_sep (p : string) : bool :=
  match p with
  | String c _ => bool_decide (c = sep)
  | EmptyString => false
  end.

(** [p.endswith("/")] *)
Fixpoint endswith_sep (p : string) : bool :=
  match p with
  | EmptyString => false
  | String c EmptyString => bool_decide (c = sep)
  | String _ p' => endswith_sep p'
  end.

(** [p.rfind("/")]: the index of the last separator, or -1. *)
Fixpoint rfind_sep (p : string) : Z :=
  match p with
  | EmptyString => -1
  | String c p' =>
      let r := rfind_sep p' in
      if 0 <=? r then r + 1
      else if bool_decide (c = sep) then 0 else -1
  end.

(** [sep * n] *)
Fixpoint seps (n : nat) : string :=
  match n with
  | O => EmptyString
  | S n' => String sep (seps n')
  end.

(** [s.rstrip("/")] *)
Fixpoint rstrip_sep (s : string) : string :=
  match s with
  | EmptyString => EmptyString
  | String c s' =>
      match rstrip_sep s' with
      | EmptyString => if bool_decide (c = sep) then EmptyString
                       else String c EmptyString
      | r => String c r
      end
  end.

(** [posixpath.isabs] *)
Definition isabs (p : string) : bool := startswith_sep p.

(** [posixpath.dirname]:
<<
    i = p.rfind(sep) + 1
    head = p[:i]
    if head and head != sep*len(head):
        head = head.rstrip(sep)
    return head
>> *)
Definition dirname (p : string) : string :=
  let i := rfind_sep p + 1 in
  let head := String.substring 0 (Z.to_nat i) p in
  if negb (bool_decide (head = EmptyString))
     && negb (bool_decide (head = seps (String.length head)))
  then rstrip_sep head
  else head.

(** [posixpath.join(a, b)] with one component [b]:
<<
    if b.startswith(sep):        path = b
    elif not path or path.endswith(sep):  path += b
    else:                        path += sep + b
>> *)
Definition join (a b : string) : string :=
  if startswith_sep b then b
  else if bool_decide (a = EmptyString) || endswith_sep a then a +:+ b
  else a +:+ String sep EmptyString +:+ b.

(** How the OS reads a path the process hands it: an absolute path as it
    is, a relative one from the current working directory. *)
Definition resolve (cwd p : string) : string :=
  if isabs p then p else join cwd p.

End path.

(** ** The file store *)

(** A rendered raster image: the pixel dimensions declared in its header
    and its payload. *)
Record image : Type := Image {
  img_width : Z;
  img_height : Z;
  img_pixels : string
}.

(** What a regular file holds: plain bytes (the vector source is such a
    file) or a raster image written by the renderer. *)
Inductive data : Type :=
  | Bytes (b : string)
  | Raster (i : image).

(** An entry of the store: a directory, or a regular file with its access
    bits for this process and its contents. *)
Inductive node : Type :=
  | Dir (writable : bool)
  | File (readable writable : bool) (d : data).

(** The store maps resolved path strings to entries. Links and other
    spellings of one location are outside the model. *)
Abbreviation store := (gmap string node).

(** [os.path.exists] on a resolved path: any kind of entry counts. *)
Definition store_exists (s : store) (p : string) : bool :=
  bool_decide (is_Some (s !! p)).

(** Opening a resolved path for reading and reading it whole. *)
Definition read_file (s : store) (p : string) : exn + data :=
  match s !! p with
  | None => inl FileNotFoundError
  | Some (Dir _) => inl IsADirectoryError
  | Some (File false _ _) => inl PermissionError
  | Some (File true _ d) => inr d
  end.

(** Opening a resolved path for writing: an existing writable file is
    truncated and keeps its access bits; a new, empty file is created when
    the parent is a writable directory. *)
Definition open_for_write (s : store) (p : string) : exn + store :=
  match s !! p with
  | Some (Dir _) => inl IsADirectoryError
  | Some (File _ false _) => inl PermissionError
  | Some (File r true _) => inr (<[p := File r true (Bytes EmptyString)]> s)
  | None =>
      match s !! path.dirname p with
      | None => inl FileNotFoundError
      | Some (File _ _ _) => inl NotADirectoryError
      | Some (Dir false) => inl PermissionError
      | Some (Dir true) => inr (<[p := File true true (Bytes EmptyString)]> s)
      end
  end.

(** What has been written to the open file at [p] becomes its contents. *)
Definition set_contents (s : store) (p : string) (d : data) : store :=
  match s !! p with
  | Some (File r w _) => <[p := File r w d]> s
  | _ => s
  end.

(** ** The process: state, interactions, and the statement monad *)

(** What the process does that is visible from outside, in order. *)
Inductive event : Type :=
  | EvImport (module : string)
  | EvPrint (line : string)
  | EvExists (p : string)
  | EvSvg2png (url write_to : string) (output_width output_height : Z).

Global Instance event_eq_dec : EqDecision event.
Proof. solve_decision. Defined.

Record process : Type := Process {
  files : store;
  log : list event
}.

Definition emit (e : event) (p : process) : process :=
  {| files := files p; log := log p ++ [e] |}.

(** The lines written to standard output, in order. *)
Definition stdout (l : list event) : list string :=
  omap (λ e, match e with EvPrint line => Some line | _ => None end) l.

(** The renderer calls made, in order. *)
Definition is_svg2png (e : event) : bool :=
  match e with EvSvg2png _ _ _ _ => true | _ => false end.

Definition svg2png_calls (l : list event) : list event :=
  List.filter is_svg2png l.

(** The events that touch the source vector file: the existence check and
    the renderer reading it. *)
Definition is_source_access (e : event) : bool :=
  match e with
  | EvExists _ | EvSvg2png _ _ _ _ => true
  | _ => false
  end.

Definition source_accesses (l : list event) : list event :=
  List.filter is_source_access l.

Definition M (A : Type) : Type := process → outcome A * process.

Definition ret {A} (a : A) : M A := λ p, (Normal a, p).

Definition bind {A B} (m : M A) (k : A → M B) : M B := λ p,
  match m p with
  | (Normal a, p') => k a p'
  | (Raised e, p') => (Raised e, p')
  | (Exited c, p') => (Exited c, p')
  end.

Definition raise {A} (e : exn) : M A := λ p, (Raised e, p).

Declare Scope stmt_scope.
Delimit Scope stmt_scope with stmt.
Notation "x <- c1 ;; c2" := (bind c1 (λ x, c2))
  (at level 100, c1 at next level, right associativity) : stmt_scope.
Notation "c1 ;; c2" := (bind c1 (λ _, c2))
  (at level 100, right associativity) : stmt_scope.
Local Open Scope stmt_scope.

(** [sys.exit(code)] *)
Definition sys_exit {A} (code : Z) : M A := λ p, (Exited code, p).

(** [try: body / except c1: h1 / except c2: h2 ...]: the first clause
    whose class matches the exception in flight runs; an exception or exit
    raised by a handler is not caught by the later clauses. *)
Definition try_except {A} (body : M A) (handlers : list ((exn → bool) * M A)) : M A :=
  λ p,
  match body p with
  | (Raised e, p') =>
      match List.find (λ h, fst h e) handlers with
      | Some h => snd h p'
      | None => (Raised e, p')
      end
  | r => r
  end.

(** [for x in l: body x] *)
Fixpoint for_each {A} (l : list A) (body : A → M unit) : M unit :=
  match l with
  | [] => ret tt
  | x :: l' => body x ;; for_each l' body
  end.

(** ** The host the script runs on *)

Record host : Type := Host {
  (** the [cairosvg] package is found on the import path *)
  binding_installed : bool;
  (** the native cairo library can be loaded (libcairo / cairo.dll) *)
  native_engine : bool;
  (** [__file__] of the main module *)
  script_file : string;
  (** the current working directory of the process *)
  cwd : string;
  (** whether the encoding of standard output can encode a line *)
  stdout_encodes : string → bool;
  (** the renderer's URL layer, which parses the [url=] string as a URL:
      [None] when it opens the file the string names, [Some e] when it
      raises instead (a [#] starts a fragment and cuts the path there) *)
  url_fault : string → option exn;
  (** the renderer proper: from the contents of the source and the
      requested output width and height, the image or the exception *)
  render : data → Z → Z → exn + image;
  (** writing an image to the opened file at a resolved path: [None] when
      all of it is written, [Some (e, written)] when the write raises [e]
      with only the bytes [written] in the file (a full disk) *)
  write_fault : string → image → option (exn * string)
}.

Section Script.

Context (h : host).

(** *** Library calls *)

(** [print(line)]: the line is encoded for standard output as a whole,
    and nothing of it is written when that fails. *)
Definition print (line : string) : M unit := λ p,
  if stdout_encodes h line
  then (Normal tt, emit (EvPrint line) p)
  else (Raised UnicodeEncodeError, p).

(** [import cairosvg]: the import system first looks the package up and
    raises [ModuleNotFoundError] when it is not there; only then does it
    run the package's code, whose loading of the native library raises
    [OSError] when that fails. *)
Definition find_module : M unit :=
  if binding_installed h then ret tt else raise ModuleNotFoundError.

Definition load_native_library : M unit :=
  if native_engine h then ret tt else raise OSError.

Definition import_cairosvg : M unit :=
  (λ p, (Normal tt, emit (EvImport "cairosvg") p)) ;;
  find_module ;;
  load_native_library.

(** [os.path.exists(p)] *)
Definition path_exists (p : string) : M bool := λ st,
  (Normal (store_exists (files st) (path.resolve (cwd h) p)),
   emit (EvExists p) st).

(** [cairosvg.svg2png(url=..., write_to=..., output_width=...,
    output_height=...)]: fetch the source through the URL layer, render
    it, open the output file and write the image. A call that fails
    before the output file is opened leaves the store as it was; a
    write that stops midway leaves the opened file with what was
    written. *)
Definition svg2png (url write_to : string) (output_width output_height : Z)
  : M unit := λ st,
  let st1 := emit (EvSvg2png url write_to output_width output_height) st in
  let out := path.resolve (cwd h) write_to in
  match read_file (files st) (path.resolve (cwd h) url) with
  | inl e => (Raised e, st1)
  | inr src =>
      match url_fault h url with
      | Some e => (Raised e, st1)
      | None =>
          match render h src output_width output_height with
          | inl e => (Raised e, st1)
          | inr img =>
              match open_for_write (files st) out with
              | inl e => (Raised e, st1)
              | inr opened =>
                  match write_fault h out img with
                  | Some (e, written) =>
                      (Raised e,
                       {| files := set_contents opened out (Bytes written);
                          log := log st1 |})
                  | None =>
                      (Normal tt,
                       {| files := set_contents opened out (Raster img);
                          log := log st1 |})
                  end
              end
          end
      end
  end.

(** *** The script *)

Definition sizes : list Z := [16; 48; 128; 300].

Definition svg_file : string :=
  path.join (path.dirname (script_file h)) "chat-icon.svg".

(** [f"chat-icon-{size}.png"] *)
Definition out_file (size : Z) : string :=
  "chat-icon-" +:+ pretty size +:+ ".png".

Definition convert_icons : M unit :=
  try_except import_cairosvg
    [ (is_OSError,
        print "Cairo library 未安裝或找不到 (libcairo / cairo.dll)" ;;
        print "Windows → 請安裝 GTK runtime" ;;
        print "Linux  → apt install libcairo2" ;;
        print "macOS  → brew install cairo" ;;
        sys_exit 1);
      (is_ImportError,
        print "需安裝 cairosvg: pip install cairosvg" ;;
        sys_exit 1) ] ;;
  found <- path_exists svg_file ;;
  (if negb found
   then print ("無法取得 " +:+ svg_file) ;; sys_exit 1
   else ret tt) ;;
  for_each sizes (λ size,
    svg2png svg_file (out_file size) size size ;;
    print ("已轉換: " +:+ out_file size)).

(** One run of the script as a fresh process on store [s]. *)
Definition run (s : store) : outcome unit * process :=
  convert_icons {| files := s; log := [] |}.

End Script.


(** ** Vocabulary for the statements *)

(** The effect of opening [p] for writing and leaving [d] in it: the
    entry at [p] becomes a writable regular file holding [d]; an existing
    file keeps its read bit, a new one is readable. *)
Definition put_file (s : store) (p : string) (d : data) : store :=
  <[p := File (match s !! p with Some (File r _ _) => r | _ => true end)
              true d]> s.

(** [p] can be opened for writing: it is a writable regular file, or it
    does not exist and its parent is a writable directory. *)
Definition can_write (s : store) (p : string) : bool :=
  match s !! p with
  | Some (File _ w _) => w
  | Some (Dir _) => false
  | None =>
      match s !! path.dirname p with
      | Some (Dir w) => w
      | _ => false
      end
  end.

Section Vocabulary.

Context (h : host).

(** The source and output paths as the OS resolves them. *)
Definition svg_path : string := path.resolve (cwd h) (svg_file h).
Definition out_path (size : Z) : string := path.resolve (cwd h) (out_file size).

(** The body of the [for] loop, and the line it prints. *)
Definition progress_line (size : Z) : string := "已轉換: " +:+ out_file size.

Definition loop_body (size : Z) : M unit :=
  svg2png h (svg_file h) (out_file size) size size ;;
  print h ("已轉換: " +:+ out_file size).

Definition svg2png_event (size : Z) : event :=
  EvSvg2png (svg_file h) (out_file size) size size.

(** The events of the iterations that ran to their end. *)
Definition loop_events (l : list Z) : list event :=
  flat_map (λ size, [svg2png_event size; EvPrint (progress_line size)]) l.

(** The process when the loop starts: both checks are behind it. *)
Definition after_checks (s : store) : process :=
  {| files := s; log := [EvImport "cairosvg"; EvExists (svg_file h)] |}.

(** The lines of [lines] that reach standard output when they are
    printed one after the other: those before the first one that cannot
    be encoded. *)
Fixpoint printed (lines : list string) : list string :=
  match lines with
  | [] => []
  | line :: rest =>
      if stdout_encodes h line then line :: printed rest else []
  end.

(** How a checked failure ends after printing [lines]: with
    [sys.exit(1)], unless a [print] raised before. *)
Definition check_exit (lines : list string) : outcome unit :=
  if forallb (stdout_encodes h) lines then Exited 1
  else Raised UnicodeEncodeError.


(** The store after the iterations for [l] ran to their end, the
    renderer giving [img size] for each size. *)
Definition put_outputs (img : Z → image) (s : store) (l : list Z) : store :=
  foldl (λ acc size, put_file acc (out_path size) (Raster (img size))) s l.

End Vocabulary.

Global Arguments sizes : simpl never.

(** The diagnostics of the two [except] clauses, line by line. *)
Definition native_diagnostic : list string :=
  [ "Cairo library 未安裝或找不到 (libcairo / cairo.dll)";
    "Windows → 請安裝 GTK runtime";
    "Linux  → apt install libcairo2";
    "macOS  → brew install cairo" ].

Definition binding_diagnostic : list string :=
  [ "需安裝 cairosvg: pip install cairosvg" ].

(** [needle in line] *)
Fixpoint contains (needle line : string) : bool :=
  String.prefix needle line
  || match line with
     | EmptyString => false
     | String _ rest => contains needle rest
     end.

Section RunKinds.

Context (h : host).

(** Every run is one of five kinds: it stops at one of the three
    checks, or it completes the loop, or the iteration for some size
    does not complete, which leaves the store changed at most at the
    output path of that size. *)
Inductive run_kind (s : store) : Prop :=
  | NoBinding :
      binding_installed h = false →
      run h s = (check_exit h binding_diagnostic,
                 {| files := s;
                    log := EvImport "cairosvg"
                           :: (EvPrint <$> printed h binding_diagnostic) |}) →
      run_kind s
  | NoNative :
      binding_installed h = true → native_engine h = false →
      run h s = (check_exit h native_diagnostic,
                 {| files := s;
                    log := EvImport "cairosvg"
                           :: (EvPrint <$> printed h native_diagnostic) |}) →
      run_kind s
  | NoSource :
      binding_installed h = true → native_engine h = true →
      store_exists s (svg_path h) = false →
      run h s = (check_exit h ["無法取得 " +:+ svg_file h],
                 {| files := s;
                    log := [EvImport "cairosvg"; EvExists (svg_file h)]
                           ++ (EvPrint
                                 <$> printed h ["無法取得 " +:+ svg_file h]) |}) →
      run_kind s
  | LoopDone st :
      binding_installed h = true → native_engine h = true →
      store_exists s (svg_path h) = true →
      run h s = (Normal tt, st) →
      log st = [EvImport "cairosvg"; EvExists (svg_file h)]
               ++ loop_events h sizes →
      run_kind s
  | LoopRaised pre size post e st1 st2 :
      binding_installed h = true → native_engine h = true →
      store_exists s (svg_path h) = true →
      sizes = pre ++ size :: post →
      for_each pre (loop_body h) (after_checks h s) = (Normal tt, st1) →
      log st1 = [EvImport "cairosvg"; EvExists (svg_file h)]
                ++ loop_events h pre →
      run h s = (Raised e, st2) →
      log st2 = log st1 ++ [svg2png_event h size] →
      (files st2 = files st1
       ∨ ∃ d, can_write (files st1) (out_path h size) = true
              ∧ files st2 = put_file (files st1) (out_path h size) d) →
      run_kind s.

End RunKinds.

(** ** Sample hosts and stores *)

(** A renderer for the examples: it accepts any non-empty source bytes at
    positive dimensions and declares the requested dimensions. *)
Definition sample_render (d : data) (w ht : Z) : exn + image :=
  match d with
  | Bytes b =>
      if bool_decide (b = EmptyString) || (w <=? 0) || (ht <=? 0)
      then inl ParseError
      else inr (Image w ht b)
  | Raster _ => inl ParseError
  end.

Definition sample_image (size : Z) : image := Image size size "<svg/>".

(** Every byte of the line is below 128. *)
Fixpoint ascii_only (line : string) : bool :=
  match line with
  | EmptyString => true
  | String c rest => (nat_of_ascii c <? 128)%nat && ascii_only rest
  end.

(** The string has a [#] in it. *)
Fixpoint has_fragment (url : string) : bool :=
  match url with
  | EmptyString => false
  | String c rest => bool_decide (c = "#"%char) || has_fragment rest
  end.

Definition sample_url_fault (url : string) : option exn :=
  if has_fragment url then Some URLError else None.

(** A host with both dependencies, the script under [/opt/ext/tools], the
    process started in [/home/u/out], a UTF-8 standard output and a disk
    with room. *)
Definition sample_host : host :=
  {| binding_installed := true;
     native_engine := true;
     script_file := "/opt/ext/tools/convert-icons.py";
     cwd := "/home/u/out";
     stdout_encodes := λ _, true;
     url_fault := sample_url_fault;
     render := sample_render;
     write_fault := λ _ _, None |}.

Definition host_without_binding : host :=
  {| binding_installed := false;
     native_engine := false;
     script_file := "/opt/ext/tools/convert-icons.py";
     cwd := "/home/u/out";
     stdout_encodes := λ _, true;
     url_fault := sample_url_fault;
     render := sample_render;
     write_fault := λ _ _, None |}.

Definition host_without_native : host :=
  {| binding_installed := true;
     native_engine := false;
     script_file := "/opt/ext/tools/convert-icons.py";
     cwd := "/home/u/out";
     stdout_encodes := λ _, true;
     url_fault := sample_url_fault;
     render := sample_render;
     write_fault := λ _ _, None |}.

(** The same three hosts with a standard output that encodes ASCII only. *)
Definition ascii_host : host :=
  {| binding_installed := true;
     native_engine := true;
     script_file := "/opt/ext/tools/convert-icons.py";
     cwd := "/home/u/out";
     stdout_encodes := ascii_only;
     url_fault := sample_url_fault;
     render := sample_render;
     write_fault := λ _ _, None |}.

Definition ascii_host_without_binding : host :=
  {| binding_installed := false;
     native_engine := false;
     script_file := "/opt/ext/tools/convert-icons.py";
     cwd := "/home/u/out";
     stdout_encodes := ascii_only;
     url_fault := sample_url_fault;
     render := sample_render;
     write_fault := λ _ _, None |}.

Definition ascii_host_without_native : host :=
  {| binding_installed := true;
     native_engine := false;
     script_file := "/opt/ext/tools/convert-icons.py";
     cwd := "/home/u/out";
     stdout_encodes := ascii_only;
     url_fault := sample_url_fault;
     render := sample_render;
     write_fault := λ _ _, None |}.

(** The sample host with a disk that fills up while the third image is
    written: only its first bytes reach the file. *)
Definition full_disk_host : host :=
  {| binding_installed := true;
     native_engine := true;
     script_file := "/opt/ext/tools/convert-icons.py";
     cwd := "/home/u/out";
     stdout_encodes := λ _, true;
     url_fault := sample_url_fault;
     render := sample_render;
     write_fault := λ p _,
       if bool_decide (p = "/home/u/out/chat-icon-128.png")
       then Some (OSError, "PNG-head") else None |}.

(** The sample host with the script in a directory whose name has a [#]. *)
Definition fragment_host : host :=
  {| binding_installed := true;
     native_engine := true;
     script_file := "/opt/ext#1/tools/convert-icons.py";
     cwd := "/home/u/out";
     stdout_encodes := λ _, true;
     url_fault := sample_url_fault;
     render := sample_render;
     write_fault := λ _ _, None |}.

(** The source in place, the working directory writable and empty. *)
Definition sample_store : store :=
  <["/opt/ext/tools/chat-icon.svg" := File true false (Bytes "<svg/>")]>
  (<["/opt/ext/tools" := Dir false]>
  (<["/home/u/out" := Dir true]> ∅)).


(** The same as [sample_store] with a write-protected file where the
    third output goes. *)
Definition blocked_128_store : store :=
  <["/home/u/out/chat-icon-128.png" := File true false (Bytes "")]> sample_store.

(** No source next to the script. *)
Definition no_source_store : store :=
  <["/opt/ext/tools" := Dir false]> (<["/home/u/out" := Dir true]> ∅).

(** A directory, and an unreadable file, where the source should be. *)
Definition dir_source_store : store :=
  <["/opt/ext/tools/chat-icon.svg" := Dir true]> no_source_store.

Definition unreadable_source_store : store :=
  <["/opt/ext/tools/chat-icon.svg" := File false false (Bytes "<svg/>")]>
  no_source_store.

(** The same host with the script started by its bare name from the
    directory that holds it. *)
Definition bare_script_host : host :=
  {| binding_installed := true;
     native_engine := true;
     script_file := "convert-icons.py";
     cwd := "/opt/ext/tools";
     stdout_encodes := λ _, true;
     url_fault := sample_url_fault;
     render := sample_render;
     write_fault := λ _ _, None |}.

(** Source and working directory in one writable place. *)
Definition tools_store : store :=
  <["/opt/ext/tools/chat-icon.svg" := File true false (Bytes "<svg/>")]>
  (<["/opt/ext/tools" := Dir true]> ∅).

(** The script directory with a [#] in its name, the source in place. *)
Definition fragment_store : store :=
  <["/opt/ext#1/tools/chat-icon.svg" := File true false (Bytes "<svg/>")]>
  (<["/opt/ext#1/tools" := Dir false]>
  (<["/home/u/out" := Dir true]> ∅)).

(** * Properties *)

(** ** [os.path] on sample paths *)

Example dirname_abs : path.dirname "/opt/ext/tools/convert-icons.py" = "/opt/ext/tools".
Proof. reflexivity. Qed.
Example dirname_rel : path.dirname "tools/convert-icons.py" = "tools".
Proof. reflexivity. Qed.
Example dirname_bare : path.dirname "convert-icons.py" = "".
Proof. reflexivity. Qed.
Example dirname_root : path.dirname "/convert-icons.py" = "/".
Proof. reflexivity. Qed.
Example dirname_seps : path.dirname "//a//b" = "//a".
Proof. reflexivity. Qed.
Example join_plain : path.join "/opt/ext/tools" "chat-icon.svg" = "/opt/ext/tools/chat-icon.svg".
Proof. reflexivity. Qed.
Example join_empty : path.join "" "chat-icon.svg" = "chat-icon.svg".
Proof. reflexivity. Qed.
Example join_root : path.join "/" "chat-icon.svg" = "/chat-icon.svg".
Proof. reflexivity. Qed.


(** ** Strings and paths *)

Section Paths.

Import path.

Lemma app_cons_str (x : ascii) (a b : string) :
  String x a +:+ b = String x (a +:+ b).
Proof. reflexivity. Qed.

Lemma app_nil_l_str (a : string) : "" +:+ a = a.
Proof. reflexivity. Qed.

Lemma app_assoc_str (a b c : string) : (a +:+ b) +:+ c = a +:+ (b +:+ c).
Proof.
  induction a as [|x a IH]; [done|]. by rewrite !app_cons_str, IH.
Qed.

Lemma list_of_app (a b : string) :
  String.list_ascii_of_string (a +:+ b)
  = String.list_ascii_of_string a ++ String.list_ascii_of_string b.
Proof.
  induction a as [|x a IH]; [done|]. rewrite app_cons_str. cbn.
  by rewrite IH.
Qed.

Lemma length_list_of (a : string) :
  length (String.list_ascii_of_string a) = String.length a.
Proof. induction a as [|x a IH]; [done|]. cbn. by rewrite IH. Qed.

(** Two strings with different endings of one length differ. *)
Lemma app_suffix_ne (a b u v : string) :
  String.length u = String.length v → u ≠ v → a +:+ u ≠ b +:+ v.
Proof.
  intros Hlen Hne Heq. apply Hne.
  apply (f_equal String.list_ascii_of_string) in Heq.
  rewrite !list_of_app in Heq.
  apply app_inj_2 in Heq as [_ Heq]; [|by rewrite !length_list_of].
  rewrite <- (String.string_of_list_ascii_of_string u),
          <- (String.string_of_list_ascii_of_string v).
  by rewrite Heq.
Qed.

Lemma startswith_sep_app (a b : string) :
  a ≠ "" → startswith_sep (a +:+ b) = startswith_sep a.
Proof. by destruct a. Qed.

Lemma rfind_sep_ge (p : string) : -1 ≤ rfind_sep p.
Proof.
  induction p as [|c p IH]; cbn; [lia|].
  destruct (Z.leb_spec 0 (rfind_sep p)); [lia|]. case_bool_decide; lia.
Qed.

(** The last separator of [d/f] is the one written, when [f] has none. *)
Lemma rfind_sep_app (d f : string) :
  rfind_sep f = -1 →
  rfind_sep (d +:+ String sep f) = Z.of_nat (String.length d).
Proof.
  intros Hf. induction d as [|c d IH].
  - rewrite app_nil_l_str. cbn. rewrite Hf. cbn.
    by rewrite bool_decide_eq_true_2.
  - rewrite app_cons_str. cbn. rewrite IH. destruct (Z.leb_spec 0 (Z.of_nat (String.length d))); lia.
Qed.

Lemma substring_app (d f : string) :
  String.substring 0 (String.length d) (d +:+ f) = d.
Proof.
  induction d as [|c d IH]; [by destruct f|].
  rewrite app_cons_str. cbn. by rewrite IH.
Qed.

Lemma rstrip_sep_app_sep (d : string) :
  rstrip_sep (d +:+ String sep "") = rstrip_sep d.
Proof.
  induction d as [|c d IH];
    [rewrite app_nil_l_str; cbn; by rewrite bool_decide_eq_true_2|].
  rewrite app_cons_str. cbn. by rewrite IH.
Qed.

Lemma rstrip_sep_id (d : string) :
  endswith_sep d = false → rstrip_sep d = d.
Proof.
  induction d as [|c d IH]; [done|]. cbn. destruct d as [|c' d].
  - cbn. intros ->. done.
  - intros Hd. rewrite (IH Hd). done.
Qed.

Lemma rstrip_sep_seps (n : nat) : rstrip_sep (seps n) = "".
Proof.
  induction n as [|n IH]; [done|]. cbn. rewrite IH.
  by rewrite bool_decide_eq_true_2.
Qed.

Lemma length_app_str (a b : string) :
  String.length (a +:+ b) = (String.length a + String.length b)%nat.
Proof.
  induction a as [|x a IH]; [done|]. rewrite app_cons_str. cbn.
  by rewrite IH.
Qed.

(** [dirname] of [d/f] is [d], for a directory path [d] that is not
    empty and has no trailing separator and a file name [f]. *)
Lemma dirname_app (d f : string) :
  d ≠ "" → endswith_sep d = false → rfind_sep f = -1 →
  dirname (d +:+ String sep f) = d.
Proof.
  intros Hd Hend Hf. unfold dirname.
  rewrite (rfind_sep_app _ _ Hf).
  replace (Z.to_nat (Z.of_nat (String.length d) + 1))
    with (String.length (d +:+ String sep "")) by (rewrite length_app_str; cbn; lia).
  replace (d +:+ String sep f) with ((d +:+ String sep "") +:+ f)
    by (by rewrite app_assoc_str).
  rewrite substring_app.
  assert (Hstrip : rstrip_sep (d +:+ String sep "") = d)
    by (by rewrite rstrip_sep_app_sep, rstrip_sep_id).
  rewrite bool_decide_eq_false_2 by (by destruct d).
  rewrite bool_decide_eq_false_2; [done|].
  intros Heq. rewrite Heq, rstrip_sep_seps in Hstrip. done.
Qed.

(** [dirname] of [/f] is the root. *)
Lemma dirname_root_file (f : string) :
  rfind_sep f = -1 → dirname (String sep f) = String sep "".
Proof.
  intros Hf. unfold dirname. cbn [rfind_sep]. rewrite Hf. cbn.
  by destruct f.
Qed.

Lemma join_rel (a b : string) :
  a ≠ "" → endswith_sep a = false → startswith_sep b = false →
  join a b = a +:+ String sep b.
Proof.
  intros Ha Hend Hb. unfold join. rewrite Hb, Hend.
  rewrite bool_decide_eq_false_2 by done. cbn. done.
Qed.

Lemma join_suffix (a b : string) : ∃ pre, join a b = pre +:+ b.
Proof.
  unfold join. destruct (startswith_sep b); [by exists ""|].
  destruct (_ || _); [by exists a|].
  exists (a +:+ String sep ""). by rewrite app_assoc_str.
Qed.

Lemma resolve_suffix (c p : string) : ∃ pre, resolve c p = pre +:+ p.
Proof.
  unfold resolve. destruct (isabs p); [by exists ""|]. apply join_suffix.
Qed.

Lemma resolve_abs (c p : string) : isabs p = true → resolve c p = p.
Proof. unfold resolve. by intros ->. Qed.

Lemma resolve_rel (c p : string) :
  c ≠ "" → endswith_sep c = false → isabs p = false →
  resolve c p = c +:+ String sep p.
Proof. intros ?? Hp. unfold resolve. rewrite Hp. by apply join_rel. Qed.

End Paths.

(** ** The file store *)

Section Store.

Implicit Types (s : store) (p q : string) (d : data).

(** Opening succeeds exactly on the paths that can be written, and what
    is then written is what [put_file] describes. *)
Lemma open_for_write_ok s p :
  can_write s p = true →
  ∃ opened, open_for_write s p = inr opened
            ∧ ∀ d, set_contents opened p d = put_file s p d.
Proof.
  unfold can_write, open_for_write, put_file, set_contents.
  destruct (s !! p) as [[w|r w d']|] eqn:Hp; [done| |].
  - intros ->. eexists. split; [done|]. intros d.
    by rewrite lookup_insert_eq, insert_insert_eq.
  - destruct (s !! path.dirname p) as [[w|r w d']|]; [|done..].
    intros ->. eexists. split; [done|]. intros d.
    by rewrite lookup_insert_eq, insert_insert_eq.
Qed.

Lemma open_for_write_inr s p opened :
  open_for_write s p = inr opened →
  can_write s p = true ∧ ∀ d, set_contents opened p d = put_file s p d.
Proof.
  intros Ho.
  assert (Hc : can_write s p = true).
  { unfold open_for_write in Ho. unfold can_write.
    destruct (s !! p) as [[w|r [] d']|]; try done.
    by destruct (s !! path.dirname p) as [[[]|r w d']|]. }
  split; [done|].
  destruct (open_for_write_ok s p Hc) as (opened' & Ho' & Hd). congruence.
Qed.

Lemma lookup_put_file_eq s p d :
  ∃ r, put_file s p d !! p = Some (File r true d).
Proof. unfold put_file. eexists. apply lookup_insert_eq. Qed.

Lemma lookup_put_file_ne s p q d :
  p ≠ q → put_file s p d !! q = s !! q.
Proof. intros. unfold put_file. by rewrite lookup_insert_ne. Qed.

Lemma read_file_put_file_ne s p q d :
  p ≠ q → read_file (put_file s p d) q = read_file s q.
Proof. intros. unfold read_file. by rewrite lookup_put_file_ne. Qed.


(** A write cannot take away the right to write elsewhere. *)
Lemma can_write_put_file s p q d :
  can_write s p = true → can_write s q = true →
  can_write (put_file s p d) q = true.
Proof.
  intros Hp Hq. destruct (decide (p = q)) as [<-|Hne].
  - unfold can_write. by destruct (lookup_put_file_eq s p d) as [r ->].
  - unfold can_write in *. rewrite lookup_put_file_ne by done.
    destruct (s !! q) as [[w|r w d']|] eqn:Hsq; [done..|].
    destruct (decide (p = path.dirname q)) as [->|Hne'].
    + destruct (s !! path.dirname q) as [[w|r w d']|]; done.
    + by rewrite lookup_put_file_ne.
Qed.

Lemma can_write_put_file_inv s p q d :
  p ≠ q → can_write (put_file s p d) q = true → can_write s q = true.
Proof.
  intros Hne. unfold can_write. rewrite lookup_put_file_ne by done.
  destruct (s !! q) as [[w|r w d']|]; [done..|].
  destruct (decide (p = path.dirname q)) as [<-|Hne'].
  - by destruct (lookup_put_file_eq s p d) as [r ->].
  - by rewrite lookup_put_file_ne.
Qed.

End Store.

(** ** Printing *)

Section Printing.

Context (h : host).

Lemma printed_all (lines : list string) :
  forallb (stdout_encodes h) lines = true → printed h lines = lines.
Proof.
  induction lines as [|x lines IH]; [done|]. cbn.
  intros [-> Hl]%andb_prop. by rewrite IH.
Qed.


Lemma check_exit_status (lines : list string) :
  exit_status (check_exit h lines) = 1.
Proof. unfold check_exit. by destruct (forallb _ _). Qed.

End Printing.

(** ** The script, statement by statement *)

Section Run.

Context (h : host).
Implicit Types (s : store) (st : process) (l : list Z).

(** *** The three checked failures and the way into the loop *)

Lemma run_no_binding s :
  binding_installed h = false →
  run h s = (check_exit h binding_diagnostic,
             {| files := s;
                log := EvImport "cairosvg"
                       :: (EvPrint <$> printed h binding_diagnostic) |}).
Proof.
  intros Hb. unfold run, convert_icons, try_except, import_cairosvg,
    find_module, bind, check_exit, print. cbn. rewrite Hb. cbn.
  by destruct (stdout_encodes h _).
Qed.

Lemma run_no_native s :
  binding_installed h = true → native_engine h = false →
  run h s = (check_exit h native_diagnostic,
             {| files := s;
                log := EvImport "cairosvg"
                       :: (EvPrint <$> printed h native_diagnostic) |}).
Proof.
  intros Hb Hn. unfold run, convert_icons, try_except, import_cairosvg,
    find_module, load_native_library, bind, check_exit, print. cbn.
  rewrite Hb, Hn. cbn.
  repeat (destruct (stdout_encodes h _); cbn; [|done]). done.
Qed.

Lemma run_no_source s :
  binding_installed h = true → native_engine h = true →
  store_exists s (svg_path h) = false →
  run h s = (check_exit h ["無法取得 " +:+ svg_file h],
             {| files := s;
                log := [EvImport "cairosvg"; EvExists (svg_file h)]
                       ++ (EvPrint
                             <$> printed h ["無法取得 " +:+ svg_file h]) |}).
Proof.
  intros Hb Hn Hs. unfold run, convert_icons, try_except, import_cairosvg,
    find_module, load_native_library, path_exists, bind, check_exit, print.
  cbn. rewrite Hb, Hn. cbn. fold (svg_path h). rewrite Hs. cbn.
  by destruct (stdout_encodes h _).
Qed.

Lemma run_loop s :
  binding_installed h = true → native_engine h = true →
  store_exists s (svg_path h) = true →
  run h s = for_each sizes (loop_body h) (after_checks h s).
Proof.
  intros Hb Hn Hs. unfold run, convert_icons, try_except, import_cairosvg,
    find_module, load_native_library, path_exists, bind. cbn.
  rewrite Hb, Hn. cbn. fold (svg_path h). rewrite Hs. cbn.
  unfold after_checks, emit. cbn.
  by destruct (for_each sizes _ _) as [[] ?].
Qed.

End Run.

(** ** The render loop *)

Section Loop.

Context (h : host).
Implicit Types (s : store) (st : process) (l : list Z) (size : Z).

Lemma for_each_cons {A} (x : A) (xs : list A) (body : A → M unit) st :
  for_each (x :: xs) body st
  = match body x st with
    | (Normal _, st1) => for_each xs body st1
    | (Raised e, st1) => (Raised e, st1)
    | (Exited c, st1) => (Exited c, st1)
    end.
Proof. reflexivity. Qed.

Lemma for_each_app {A} (xs ys : list A) (body : A → M unit) st st1 :
  for_each xs body st = (Normal tt, st1) →
  for_each (xs ++ ys) body st = for_each ys body st1.
Proof.
  revert st. induction xs as [|x xs IH]; intros st.
  - by intros [= ->].
  - cbn [app]. rewrite !for_each_cons.
    destruct (body x st) as [[[]|e|c] st2]; [|done..]. apply IH.
Qed.

(** One renderer call either completes, having read the source,
    rendered it and written the image; or raises before the output is
    opened and leaves the store as it was; or raises while writing and
    leaves the output with what was written. *)
Lemma svg2png_cases st size :
  (∃ src img,
      read_file (files st) (svg_path h) = inr src
      ∧ url_fault h (svg_file h) = None
      ∧ render h src size size = inr img
      ∧ can_write (files st) (out_path h size) = true
      ∧ write_fault h (out_path h size) img = None
      ∧ svg2png h (svg_file h) (out_file size) size size st
        = (Normal tt,
           {| files := put_file (files st) (out_path h size) (Raster img);
              log := log st ++ [svg2png_event h size] |}))
  ∨ (∃ e,
      svg2png h (svg_file h) (out_file size) size size st
      = (Raised e, emit (svg2png_event h size) st))
  ∨ (∃ src img e written,
      read_file (files st) (svg_path h) = inr src
      ∧ url_fault h (svg_file h) = None
      ∧ render h src size size = inr img
      ∧ can_write (files st) (out_path h size) = true
      ∧ write_fault h (out_path h size) img = Some (e, written)
      ∧ svg2png h (svg_file h) (out_file size) size size st
        = (Raised e,
           {| files := put_file (files st) (out_path h size) (Bytes written);
              log := log st ++ [svg2png_event h size] |})).
Proof.
  unfold svg2png. fold (svg_path h) (out_path h size) (svg2png_event h size).
  destruct (read_file _ _) as [e|src] eqn:Hr; [right; left; by eexists|].
  destruct (url_fault _ _) as [e|] eqn:Hu; [right; left; by eexists|].
  destruct (render _ _ _ _) as [e|img] eqn:Hi; [right; left; by eexists|].
  destruct (open_for_write _ _) as [e|opened] eqn:Ho;
    [right; left; by eexists|].
  apply open_for_write_inr in Ho as [Hc Hset].
  destruct (write_fault _ _ _) as [[e written]|] eqn:Hw.
  - right; right. exists src, img, e, written. by rewrite Hset.
  - left. exists src, img. by rewrite Hset.
Qed.

Lemma svg2png_ok st size src img :
  read_file (files st) (svg_path h) = inr src →
  url_fault h (svg_file h) = None →
  render h src size size = inr img →
  can_write (files st) (out_path h size) = true →
  write_fault h (out_path h size) img = None →
  svg2png h (svg_file h) (out_file size) size size st
  = (Normal tt,
     {| files := put_file (files st) (out_path h size) (Raster img);
        log := log st ++ [svg2png_event h size] |}).
Proof.
  intros Hr Hu Hi Hc Hw. unfold svg2png.
  fold (svg_path h) (out_path h size). rewrite Hr, Hu, Hi.
  destruct (open_for_write_ok _ _ Hc) as (opened & -> & Hset).
  by rewrite Hw, Hset.
Qed.


Lemma loop_body_ok st size src img :
  read_file (files st) (svg_path h) = inr src →
  url_fault h (svg_file h) = None →
  render h src size size = inr img →
  can_write (files st) (out_path h size) = true →
  write_fault h (out_path h size) img = None →
  stdout_encodes h (progress_line size) = true →
  loop_body h size st
  = (Normal tt,
     {| files := put_file (files st) (out_path h size) (Raster img);
        log := log st ++ loop_events h [size] |}).
Proof.
  intros Hr Hu Hi Hc Hw Hp. unfold loop_body, bind, svg2png.
  fold (svg_path h) (out_path h size). rewrite Hr, Hu, Hi.
  destruct (open_for_write_ok _ _ Hc) as (opened & -> & Hset).
  rewrite Hw, Hset. unfold print. fold (progress_line size). rewrite Hp.
  unfold emit. cbn. by rewrite <- app_assoc.
Qed.

(** The same call with a progress line that cannot be encoded: the
    image is written and the [print] raises. *)
Lemma loop_body_unprinted st size src img :
  read_file (files st) (svg_path h) = inr src →
  url_fault h (svg_file h) = None →
  render h src size size = inr img →
  can_write (files st) (out_path h size) = true →
  write_fault h (out_path h size) img = None →
  stdout_encodes h (progress_line size) = false →
  loop_body h size st
  = (Raised UnicodeEncodeError,
     {| files := put_file (files st) (out_path h size) (Raster img);
        log := log st ++ [svg2png_event h size] |}).
Proof.
  intros Hr Hu Hi Hc Hw Hp. unfold loop_body, bind, svg2png.
  fold (svg_path h) (out_path h size). rewrite Hr, Hu, Hi.
  destruct (open_for_write_ok _ _ Hc) as (opened & -> & Hset).
  rewrite Hw, Hset. unfold print. fold (progress_line size). by rewrite Hp.
Qed.

Lemma loop_body_raised st size e st1 :
  svg2png h (svg_file h) (out_file size) size size st = (Raised e, st1) →
  loop_body h size st = (Raised e, st1).
Proof. intros Hc. unfold loop_body, bind. by rewrite Hc. Qed.

(** One iteration either completes, or ends the loop with an exception
    after its renderer call, the store changed at most at its output
    path. *)
Lemma loop_body_cases st size :
  (∃ src img,
      read_file (files st) (svg_path h) = inr src
      ∧ url_fault h (svg_file h) = None
      ∧ render h src size size = inr img
      ∧ can_write (files st) (out_path h size) = true
      ∧ write_fault h (out_path h size) img = None
      ∧ stdout_encodes h (progress_line size) = true
      ∧ loop_body h size st
        = (Normal tt,
           {| files := put_file (files st) (out_path h size) (Raster img);
              log := log st ++ loop_events h [size] |}))
  ∨ (∃ e st2,
      loop_body h size st = (Raised e, st2)
      ∧ log st2 = log st ++ [svg2png_event h size]
      ∧ (files st2 = files st
         ∨ ∃ d, can_write (files st) (out_path h size) = true
                ∧ files st2 = put_file (files st) (out_path h size) d)).
Proof.
  destruct (svg2png_cases st size)
    as [(src & img & Hr & Hu & Hi & Hc & Hw & Hcall)
       |[[e Hcall]|(src & img & e & written & Hr & Hu & Hi & Hc & Hw & Hcall)]].
  - destruct (stdout_encodes h (progress_line size)) eqn:Hp.
    + left. exists src, img. repeat (split; [done|]).
      by apply (loop_body_ok st size src img).
    + right. eexists _, _.
      split; [by apply (loop_body_unprinted st size src img)|].
      split; [done|]. right. by eexists.
  - right. eexists _, _. split; [by apply loop_body_raised|].
    split; [done|]. by left.
  - right. eexists _, _. split; [by apply loop_body_raised|].
    split; [done|]. right. by eexists.
Qed.

(** The shape of every execution of the loop: either every iteration
    completes, or the iterations before some size complete and the
    iteration for that size ends the loop. *)
Lemma loop_cases l st :
  (∃ st',
      for_each l (loop_body h) st = (Normal tt, st')
      ∧ log st' = log st ++ loop_events h l)
  ∨ (∃ pre size post e st1 st2,
      l = pre ++ size :: post
      ∧ for_each pre (loop_body h) st = (Normal tt, st1)
      ∧ log st1 = log st ++ loop_events h pre
      ∧ for_each l (loop_body h) st = (Raised e, st2)
      ∧ log st2 = log st1 ++ [svg2png_event h size]
      ∧ (files st2 = files st1
         ∨ ∃ d, can_write (files st1) (out_path h size) = true
                ∧ files st2 = put_file (files st1) (out_path h size) d)).
Proof.
  revert st. induction l as [|size l IH]; intros st.
  - left. exists st. split; [done|]. by rewrite app_nil_r.
  - destruct (loop_body_cases st size)
      as [(src & img & _ & _ & _ & _ & _ & _ & Hb)|(e & st2 & Hb & Hlog & Hf)].
    + rewrite for_each_cons, Hb.
      destruct (IH {| files := put_file (files st) (out_path h size) (Raster img);
                      log := log st ++ loop_events h [size] |})
        as [(st' & Hrun & Hlog)
           |(pre & s' & post & e & st1 & st2 & -> & Hpre & Hlog & Hrun & Hlog2 & Hf)].
      * left. exists st'. split; [done|]. rewrite Hlog. cbn [log].
        by rewrite <- app_assoc.
      * right. exists (size :: pre), s', post, e, st1, st2. split; [done|].
        split; [by rewrite for_each_cons, Hb|]. split; [|done].
        rewrite Hlog. cbn [log]. by rewrite <- app_assoc.
    + right. exists [], size, l, e, st, st2. split; [done|]. split; [done|].
      split; [by rewrite app_nil_r|].
      by rewrite for_each_cons, Hb.
Qed.

(** The loop writes nowhere but at the output paths. *)
Lemma loop_frame l st o st' p :
  for_each l (loop_body h) st = (o, st') →
  (∀ size, size ∈ l → p ≠ out_path h size) →
  files st' !! p = files st !! p.
Proof.
  revert st. induction l as [|size l IH]; intros st Hrun Hp.
  - by injection Hrun as _ <-.
  - rewrite for_each_cons in Hrun.
    assert (Hne : out_path h size ≠ p).
    { apply not_eq_sym, Hp. apply list_elem_of_here. }
    destruct (loop_body_cases st size)
      as [(src & img & _ & _ & _ & _ & _ & _ & Hb)
         |(e & st2 & Hb & _ & [Hf|(d & _ & Hf)])];
      rewrite Hb in Hrun.
    + rewrite (IH _ Hrun) by (intros; by apply Hp, list_elem_of_further).
      cbn [files]. by apply lookup_put_file_ne.
    + injection Hrun as _ <-. by rewrite Hf.
    + injection Hrun as _ <-. rewrite Hf. by apply lookup_put_file_ne.
Qed.

(** When the source can be read and rendered at each size, each output
    can be opened and written in full, and each progress line can be
    encoded, every iteration completes. *)
Lemma loop_ok (img : Z → image) src l st :
  read_file (files st) (svg_path h) = inr src →
  url_fault h (svg_file h) = None →
  (∀ size, size ∈ l → svg_path h ≠ out_path h size) →
  (∀ size, size ∈ l → render h src size size = inr (img size)) →
  (∀ size, size ∈ l → can_write (files st) (out_path h size) = true) →
  (∀ size, size ∈ l → write_fault h (out_path h size) (img size) = None) →
  (∀ size, size ∈ l → stdout_encodes h (progress_line size) = true) →
  for_each l (loop_body h) st
  = (Normal tt,
     {| files := put_outputs h img (files st) l;
        log := log st ++ loop_events h l |}).
Proof.
  revert st. induction l as [|size l IH]; intros st Hr Hu Hne Hi Hc Hw Hp.
  - cbn. rewrite app_nil_r. by destruct st.
  - assert (Hin : size ∈ size :: l) by apply list_elem_of_here.
    rewrite for_each_cons.
    rewrite (loop_body_ok st size src (img size)) by auto.
    rewrite IH; cbn [files log].
    + by rewrite <- app_assoc.
    + rewrite read_file_put_file_ne; [done|]. by apply not_eq_sym, Hne.
    + done.
    + intros; by apply Hne, list_elem_of_further.
    + intros; by apply Hi, list_elem_of_further.
    + intros. apply can_write_put_file; [by apply Hc|].
      by apply Hc, list_elem_of_further.
    + intros; by apply Hw, list_elem_of_further.
    + intros; by apply Hp, list_elem_of_further.
Qed.

End Loop.
(** ** The paths of the script *)

Section ScriptPaths.

Context (h : host).
Implicit Types (s : store) (st : process) (l : list Z) (size : Z).

Lemma app_inv_tail_str (a b c : string) : a +:+ c = b +:+ c → a = b.
Proof.
  intros Heq. apply (f_equal String.list_ascii_of_string) in Heq.
  rewrite !list_of_app in Heq. apply app_inv_tail in Heq.
  rewrite <- (String.string_of_list_ascii_of_string a),
          <- (String.string_of_list_ascii_of_string b).
  by rewrite Heq.
Qed.

Lemma out_file_rel size : path.isabs (out_file size) = false.
Proof. reflexivity. Qed.

Lemma out_file_inj size1 size2 : out_file size1 = out_file size2 → size1 = size2.
Proof.
  unfold out_file. intros Heq. apply (inj _) in Heq.
  apply app_inv_tail_str in Heq. by apply (inj pretty) in Heq.
Qed.

Lemma join_inj (a b1 b2 : string) :
  path.startswith_sep b1 = false → path.startswith_sep b2 = false →
  path.join a b1 = path.join a b2 → b1 = b2.
Proof.
  unfold path.join. intros -> ->. destruct (_ || _); intros Heq.
  - by apply (inj _) in Heq.
  - by do 2 apply (inj _) in Heq.
Qed.

Lemma out_path_inj size1 size2 :
  out_path h size1 = out_path h size2 → size1 = size2.
Proof.
  unfold out_path, path.resolve. rewrite !out_file_rel. intros Heq.
  by apply join_inj, out_file_inj in Heq.
Qed.

(** The source ends in [.svg], every output in [.png]. *)
Lemma svg_path_ne_out_path size : svg_path h ≠ out_path h size.
Proof.
  unfold svg_path, out_path, svg_file.
  destruct (resolve_suffix (cwd h)
              (path.join (path.dirname (script_file h)) "chat-icon.svg"))
    as [pre1 ->].
  destruct (join_suffix (path.dirname (script_file h)) "chat-icon.svg")
    as [pre2 ->].
  destruct (resolve_suffix (cwd h) (out_file size)) as [pre3 ->].
  unfold out_file.
  change "chat-icon.svg" with ("chat-icon" +:+ ".svg").
  rewrite <- !app_assoc_str. by apply app_suffix_ne.
Qed.

Lemma NoDup_sizes : NoDup sizes.
Proof. compute_done. Qed.


(** The store after the completed iterations. *)
Lemma put_outputs_cons img s size l :
  put_outputs h img s (size :: l)
  = put_outputs h img (put_file s (out_path h size) (Raster (img size))) l.
Proof. reflexivity. Qed.

Lemma lookup_put_outputs_other img s l p :
  (∀ size, size ∈ l → p ≠ out_path h size) →
  put_outputs h img s l !! p = s !! p.
Proof.
  revert s. induction l as [|size l IH]; intros s Hp; [done|].
  rewrite put_outputs_cons, IH by (intros; apply Hp; set_solver).
  apply lookup_put_file_ne, not_eq_sym, Hp. set_solver.
Qed.

Lemma lookup_put_outputs_in img s l size :
  NoDup l → size ∈ l →
  ∃ r, put_outputs h img s l !! out_path h size
       = Some (File r true (Raster (img size))).
Proof.
  revert s. induction l as [|a l IH]; intros s Hnd Hin; [set_solver|].
  apply NoDup_cons in Hnd as [Ha Hnd]. rewrite put_outputs_cons.
  destruct (decide (size = a)) as [->|Hne].
  - rewrite lookup_put_outputs_other.
    + apply lookup_put_file_eq.
    + intros size Hsize Heq. apply out_path_inj in Heq. by subst.
  - apply IH; [done|]. by apply elem_of_cons in Hin as [?|?].
Qed.

End ScriptPaths.

(** ** Running the script again *)

Section Rerun.

Context (h : host).
Implicit Types (s : store) (st : process) (l : list Z) (size : Z).






End Rerun.

(** ** Whole runs *)

Section WholeRuns.

Context (h : host).
Implicit Types (s : store) (st : process) (l : list Z) (size : Z).

Lemma read_file_exists s p d : read_file s p = inr d → store_exists s p = true.
Proof.
  unfold read_file, store_exists. destruct (s !! p); [|done].
  intros _. by apply bool_decide_eq_true_2.
Qed.

(** The run in which every iteration completes. *)
Lemma run_ok (img : Z → image) src s :
  binding_installed h = true → native_engine h = true →
  read_file s (svg_path h) = inr src →
  url_fault h (svg_file h) = None →
  (∀ size, size ∈ sizes → render h src size size = inr (img size)) →
  (∀ size, size ∈ sizes → can_write s (out_path h size) = true) →
  (∀ size, size ∈ sizes → write_fault h (out_path h size) (img size) = None) →
  (∀ size, size ∈ sizes → stdout_encodes h (progress_line size) = true) →
  run h s
  = (Normal tt,
     {| files := put_outputs h img s sizes;
        log := [EvImport "cairosvg"; EvExists (svg_file h)]
               ++ loop_events h sizes |}).
Proof.
  intros Hb Hn Hr Hu Hi Hc Hw Hp.
  rewrite run_loop by eauto using read_file_exists.
  apply (loop_ok h img src); [done|done| |done|done|done|done].
  intros. apply svg_path_ne_out_path.
Qed.

Lemma run_cases s : run_kind h s.
Proof.
  destruct (binding_installed h) eqn:Hb;
    [|by apply NoBinding; [|apply run_no_binding]].
  destruct (native_engine h) eqn:Hn;
    [|by apply NoNative; [..|apply run_no_native]].
  destruct (store_exists s (svg_path h)) eqn:Hs;
    [|by apply NoSource; [..|apply run_no_source]].
  pose proof (run_loop h s Hb Hn Hs) as Hrun.
  destruct (loop_cases h sizes (after_checks h s))
    as [(st' & Hl & Hlog)
       |(pre & size & post & e & st1 & st2 & Hsz & Hpre & Hlog & Hl & Hlog2 & Hf)].
  - apply (LoopDone h s st'); [done..| |done]. by rewrite Hrun.
  - apply (LoopRaised h s pre size post e st1 st2); [done..| |done|done].
    by rewrite Hrun.
Qed.

(** What reaches standard output. *)
Lemma stdout_app (l1 l2 : list event) : stdout (l1 ++ l2) = stdout l1 ++ stdout l2.
Proof. apply omap_app. Qed.


Lemma stdout_prints (lines : list string) : stdout (EvPrint <$> lines) = lines.
Proof. induction lines as [|x lines IH]; [done|]. cbn. by rewrite <- IH at 2. Qed.

Lemma svg2png_calls_app (l1 l2 : list event) :
  svg2png_calls (l1 ++ l2) = svg2png_calls l1 ++ svg2png_calls l2.
Proof. apply List.filter_app. Qed.

Lemma svg2png_calls_loop_events l :
  svg2png_calls (loop_events h l) = svg2png_event h <$> l.
Proof. induction l as [|size l IH]; [done|]. cbn. by rewrite <- IH. Qed.

Lemma svg2png_calls_prints (lines : list string) :
  svg2png_calls (EvPrint <$> lines) = [].
Proof. induction lines as [|x lines IH]; [done|]. by cbn. Qed.

Lemma source_accesses_prints (lines : list string) :
  source_accesses (EvPrint <$> lines) = [].
Proof. induction lines as [|x lines IH]; [done|]. by cbn. Qed.

(** A run changes the store at output paths only. *)
Lemma run_frame s p :
  (∀ size, size ∈ sizes → p ≠ out_path h size) →
  files (run h s).2 !! p = s !! p.
Proof.
  intros Hp.
  destruct (binding_installed h) eqn:Hb; [|by rewrite run_no_binding].
  destruct (native_engine h) eqn:Hn; [|by rewrite run_no_native].
  destruct (store_exists s (svg_path h)) eqn:Hs; [|by rewrite run_no_source].
  rewrite run_loop by done.
  destruct (for_each sizes (loop_body h) (after_checks h s)) as [o st'] eqn:Hrun.
  by apply (loop_frame h _ _ _ _ _ Hrun).
Qed.

End WholeRuns.

(** ** Sample runs on hosts that fail *)

(** A [#] in the name of the script's directory: the existence check
    passes and the first renderer call raises in the URL layer. *)
Example run_fragment_host :
  run fragment_host fragment_store
  = (Raised URLError,
     {| files := fragment_store;
        log := [EvImport "cairosvg";
                EvExists "/opt/ext#1/tools/chat-icon.svg";
                EvSvg2png "/opt/ext#1/tools/chat-icon.svg" "chat-icon-16.png"
                          16 16] |}).
Proof. vm_compute. reflexivity. Qed.

(** A standard output that encodes ASCII only: the first image is
    written, and the [print] of its progress line raises. *)
Example run_ascii_host :
  (run ascii_host sample_store).1 = Raised UnicodeEncodeError
  ∧ log (run ascii_host sample_store).2
    = [EvImport "cairosvg"; EvExists "/opt/ext/tools/chat-icon.svg";
       EvSvg2png "/opt/ext/tools/chat-icon.svg" "chat-icon-16.png" 16 16]
  ∧ files (run ascii_host sample_store).2 !! "/home/u/out/chat-icon-16.png"
    = Some (File true true (Raster (sample_image 16)))
  ∧ files (run ascii_host sample_store).2 !! "/home/u/out/chat-icon-48.png"
    = None.
Proof. vm_compute. repeat split; reflexivity. Qed.

(** A disk that fills up during the third write: the run ends there, and
    the third output is left with the bytes that were written. *)
Example run_full_disk_host :
  (run full_disk_host sample_store).1 = Raised OSError
  ∧ stdout (log (run full_disk_host sample_store).2)
    = ["已轉換: chat-icon-16.png"; "已轉換: chat-icon-48.png"]
  ∧ files (run full_disk_host sample_store).2 !! "/home/u/out/chat-icon-128.png"
    = Some (File true true (Bytes "PNG-head"))
  ∧ files (run full_disk_host sample_store).2 !! "/home/u/out/chat-icon-300.png"
    = None.
Proof. vm_compute. repeat split; reflexivity. Qed.

(** * The claims *)

Lemma elem_of_sizes (P : Z → Prop) :
  P 16 → P 48 → P 128 → P 300 → ∀ size, size ∈ sizes → P size.
Proof.
  intros ???? size Hin. unfold sizes in Hin.
  repeat (apply elem_of_cons in Hin as [->|Hin]; [done|]).
  by apply elem_of_nil in Hin.
Qed.

(** What a run that stops at a check leaves on standard output. *)
Lemma stdout_check (lines : list string) :
  stdout (EvImport "cairosvg" :: (EvPrint <$> lines)) = lines.
Proof. cbn. apply stdout_prints. Qed.



(** ** C1: the happy path *)




(** ** Runs that stop at a check *)

Lemma checked_failure_exit (h : host) (s : store) :
  binding_installed h = false ∨ native_engine h = false
  ∨ store_exists s (svg_path h) = false →
  exit_status (run h s).1 = 1
  ∧ files (run h s).2 = s
  ∧ svg2png_calls (log (run h s).2) = [].
Proof.
  intros Hpre.
  destruct (run_cases h s)
    as [Hb Hrun|Hb Hn Hrun|Hb Hn Hs Hrun|st Hb Hn Hs Hrun Hlog
       |pre size post e st1 st2 Hb Hn Hs Hsz Hpre' Hlog Hrun Hlog2 Hf];
    [| | |destruct Hpre as [?|[?|?]]; congruence..];
    rewrite Hrun; cbn [fst snd files log]; rewrite check_exit_status;
    repeat split.
  - apply (svg2png_calls_prints _).
  - apply (svg2png_calls_prints _).
  - by rewrite svg2png_calls_app, svg2png_calls_prints.
Qed.

(** ** C2: precondition failures write nothing *)



(** ** C3: the dependency check comes first *)

Lemma log_starts_with_import (h : host) (s : store) :
  ∃ rest, log (run h s).2 = EvImport "cairosvg" :: rest.
Proof.
  destruct (run_cases h s)
    as [Hb Hrun|Hb Hn Hrun|Hb Hn Hs Hrun|st Hb Hn Hs Hrun Hlog
       |pre size post e st1 st2 Hb Hn Hs Hsz Hpre Hlog Hrun Hlog2 Hf];
    rewrite Hrun; cbn [snd log]; try rewrite Hlog2; try rewrite Hlog;
    by eexists.
Qed.

(** What a run prints when a dependency is missing: the lines of the
    diagnostic up to the first that standard output cannot encode. *)
Lemma stdout_no_native (h : host) (s : store) :
  binding_installed h = true → native_engine h = false →
  stdout (log (run h s).2) = printed h native_diagnostic.
Proof. intros Hb Hn. rewrite run_no_native by done. apply stdout_check. Qed.

Lemma stdout_no_binding (h : host) (s : store) :
  binding_installed h = false →
  stdout (log (run h s).2) = printed h binding_diagnostic.
Proof. intros Hb. rewrite run_no_binding by done. apply stdout_check. Qed.

(** C3, as stated, fails: on a standard output that encodes ASCII only,
    a run with the native engine missing ends with status 1 before any
    access to the source, but the first [print] of the handler raises and
    no diagnostic is printed. *)
Lemma native_diagnostic_can_stay_unprinted :
  native_engine ascii_host_without_native = false
  ∧ run ascii_host_without_native sample_store
    = (Raised UnicodeEncodeError,
       {| files := sample_store; log := [EvImport "cairosvg"] |})
  ∧ stdout (log (run ascii_host_without_native sample_store).2) = []
  ∧ exit_status (run ascii_host_without_native sample_store).1 = 1.
Proof. vm_compute. repeat split; reflexivity. Qed.

(** C3, amended: when the native engine cannot be loaded, the run ends
    with status 1 without any existence check or read of the source,
    having printed the lines of its dependency diagnostic up to the first
    that standard output cannot encode, all of them when it can encode
    them all; and in every run, whatever touches the source comes after
    the import. *)
Theorem dependency_check_precedes_source_check (h : host) (s : store) :
  (native_engine h = false →
     exit_status (run h s).1 = 1
     ∧ source_accesses (log (run h s).2) = []
     ∧ stdout (log (run h s).2)
       = printed h (if binding_installed h then native_diagnostic
                    else binding_diagnostic)
     ∧ (forallb (stdout_encodes h)
          (if binding_installed h then native_diagnostic
           else binding_diagnostic) = true →
        stdout (log (run h s).2)
        = if binding_installed h then native_diagnostic
          else binding_diagnostic))
  ∧ (∀ pre e post,
       log (run h s).2 = pre ++ e :: post →
       is_source_access e = true →
       EvImport "cairosvg" ∈ pre).
Proof.
  split.
  - intros Hn.
    assert (Hout : stdout (log (run h s).2)
                   = printed h (if binding_installed h then native_diagnostic
                                else binding_diagnostic)).
    { destruct (binding_installed h) eqn:Hb;
        [by apply stdout_no_native|by apply stdout_no_binding]. }
    split; [|split; [|split; [done|]]].
    + destruct (binding_installed h) eqn:Hb.
      * rewrite run_no_native by done. apply check_exit_status.
      * rewrite run_no_binding by done. apply check_exit_status.
    + destruct (binding_installed h) eqn:Hb.
      * rewrite run_no_native by done. apply (source_accesses_prints _).
      * rewrite run_no_binding by done. apply (source_accesses_prints _).
    + intros Henc. by rewrite Hout, printed_all.
  - intros pre e post Hlog He.
    destruct (log_starts_with_import h s) as [rest Hrest].
    rewrite Hrest in Hlog. destruct pre as [|e' pre].
    + injection Hlog as <- _. done.
    + injection Hlog as <- _. apply list_elem_of_here.
Qed.

Lemma dependency_check_precedes_source_check_witness :
  exit_status (run host_without_native sample_store).1 = 1
  ∧ source_accesses (log (run host_without_native sample_store).2) = []
  ∧ stdout (log (run host_without_native sample_store).2) = native_diagnostic.
Proof.
  destruct (dependency_check_precedes_source_check host_without_native
              sample_store) as [H _].
  destruct H as (H1 & H2 & _ & H3); [reflexivity|].
  split; [exact H1|]. split; [exact H2|]. apply H3. reflexivity.
Defined.

(** ** C4: two distinct diagnostics *)

(** C4, as stated, fails: on a standard output that encodes ASCII only,
    the missing native engine and the missing binding both leave standard
    output empty, so the two failures show the user the same thing. *)
Lemma diagnostics_can_be_indistinguishable :
  stdout (log (run ascii_host_without_native sample_store).2) = []
  ∧ stdout (log (run ascii_host_without_binding sample_store).2) = []
  ∧ exit_status (run ascii_host_without_native sample_store).1 = 1
  ∧ exit_status (run ascii_host_without_binding sample_store).1 = 1.
Proof. vm_compute. repeat split; reflexivity. Qed.

(** C4, amended: on a standard output that can encode them, a missing
    native engine (the import raises [OSError]) prints the native
    diagnostic, whose three lines after the first are one hint each for
    Windows, Linux and macOS, and a missing binding prints the one-line
    install instruction for [cairosvg]; the two share no line. *)
Theorem dependency_diagnostics_distinct (h : host) (s : store) :
  (binding_installed h = true → native_engine h = false →
   forallb (stdout_encodes h) native_diagnostic = true →
     stdout (log (run h s).2) = native_diagnostic)
  ∧ (binding_installed h = false →
     forallb (stdout_encodes h) binding_diagnostic = true →
     stdout (log (run h s).2) = binding_diagnostic)
  ∧ (∀ line, line ∈ binding_diagnostic → line ∉ native_diagnostic)
  ∧ (∃ header windows linux macos,
       native_diagnostic = [header; windows; linux; macos]
       ∧ contains "Windows" windows = true
       ∧ contains "Linux" linux = true
       ∧ contains "macOS" macos = true
       ∧ NoDup [windows; linux; macos])
  ∧ (∃ line,
       binding_diagnostic = [line]
       ∧ contains "pip install cairosvg" line = true).
Proof.
  split; [|split; [|split; [|split]]].
  - intros Hb Hn Henc. by rewrite stdout_no_native, printed_all.
  - intros Hb Henc. by rewrite stdout_no_binding, printed_all.
  - intros line ->%list_elem_of_singleton. compute_done.
  - do 4 eexists. split; [reflexivity|]. repeat split; compute_done.
  - eexists. split; [reflexivity|]. compute_done.
Qed.

Lemma dependency_diagnostics_distinct_witness :
  stdout (log (run host_without_native sample_store).2) = native_diagnostic
  ∧ stdout (log (run host_without_binding sample_store).2) = binding_diagnostic.
Proof.
  split.
  - apply (dependency_diagnostics_distinct host_without_native sample_store);
      reflexivity.
  - apply (dependency_diagnostics_distinct host_without_binding sample_store);
      reflexivity.
Defined.

(** ** C7: the missing source *)

(** C7, as stated, fails: with both dependencies there and nothing at the
    source path, on a standard output that encodes ASCII only the run
    ends with status 1 and no output, but the [print] of the line that
    names the path raises and nothing is printed. *)
Lemma missing_source_can_stay_unreported :
  store_exists no_source_store (svg_path ascii_host) = false
  ∧ run ascii_host no_source_store
    = (Raised UnicodeEncodeError,
       {| files := no_source_store;
          log := [EvImport "cairosvg";
                  EvExists "/opt/ext/tools/chat-icon.svg"] |})
  ∧ stdout (log (run ascii_host no_source_store).2) = [].
Proof. vm_compute. repeat split; reflexivity. Qed.

(** C7, amended: when nothing exists at the source path, the run ends
    with status 1, leaves the store as it was and makes no renderer call;
    when the import has succeeded, so that the script gets to compute the
    path, and standard output can encode the line, standard output is the
    one line made of the fixed prefix and that path. *)
Theorem missing_source_reported (h : host) (s : store) :
  store_exists s (svg_path h) = false →
  exit_status (run h s).1 = 1
  ∧ files (run h s).2 = s
  ∧ svg2png_calls (log (run h s).2) = []
  ∧ (binding_installed h = true → native_engine h = true →
     stdout_encodes h ("無法取得 " +:+ svg_file h) = true →
     stdout (log (run h s).2) = ["無法取得 " +:+ svg_file h]).
Proof.
  intros Hs.
  destruct (checked_failure_exit h s) as (? & ? & ?); [auto|].
  repeat (split; [done|]). intros Hb Hn Henc.
  rewrite run_no_source by done. cbn [snd log].
  rewrite stdout_app, stdout_prints. cbn [printed]. by rewrite Henc.
Qed.

Lemma missing_source_reported_witness :
  exit_status (run sample_host no_source_store).1 = 1
  ∧ files (run sample_host no_source_store).2 = no_source_store
  ∧ svg2png_calls (log (run sample_host no_source_store).2) = []
  ∧ stdout (log (run sample_host no_source_store).2)
    = ["無法取得 /opt/ext/tools/chat-icon.svg"].
Proof.
  destruct (missing_source_reported sample_host no_source_store)
    as (H1 & H2 & H3 & H4); [vm_compute; reflexivity|].
  repeat (split; [assumption|]). rewrite H4 by reflexivity.
  vm_compute. reflexivity.
Defined.

(** ** C9: a missing binding hides a missing native engine *)




(** ** C10: existence is all the source check asks for *)

(** C10: with both dependencies there, whatever kind of entry sits at the
    source path, the run passes the existence check and makes the first
    renderer call; when the entry is a directory or an unreadable file
    that call raises, and the run ends in the loop with status 1, the
    store unchanged and the missing-source line not printed. *)
Theorem existence_check_admits_unreadable_source
    (h : host) (s : store) (n : node) :
  binding_installed h = true →
  native_engine h = true →
  s !! svg_path h = Some n →
  (∃ rest, log (run h s).2
           = [EvImport "cairosvg"; EvExists (svg_file h);
              EvSvg2png (svg_file h) "chat-icon-16.png" 16 16] ++ rest)
  ∧ (match n with
     | File true _ _ => True
     | _ =>
         run h s
         = (Raised (match n with
                    | Dir _ => IsADirectoryError
                    | File _ _ _ => PermissionError
                    end),
            {| files := s;
               log := [EvImport "cairosvg"; EvExists (svg_file h);
                       EvSvg2png (svg_file h) "chat-icon-16.png" 16 16] |})
         ∧ exit_status (run h s).1 = 1
     end).
Proof.
  intros Hb Hn Hs.
  assert (Hex : store_exists s (svg_path h) = true).
  { unfold store_exists. rewrite Hs. by apply bool_decide_eq_true_2. }
  split.
  - destruct (run_cases h s)
      as [? Hrun|? ? Hrun|? ? ? Hrun|st _ _ _ Hrun Hlog
         |pre size post e st1 st2 _ _ _ Hsz Hpre Hlog Hrun Hlog2 Hf];
      try congruence; rewrite Hrun; cbn [snd log];
      try rewrite Hlog2; rewrite Hlog.
    + by eexists.
    + destruct pre as [|a pre].
      * injection Hsz as <- _. by eexists.
      * injection Hsz as <- _. by eexists.
  - assert (Hfail : ∀ e, read_file s (svg_path h) = inl e →
              run h s = (Raised e,
                {| files := s;
                   log := [EvImport "cairosvg"; EvExists (svg_file h);
                           EvSvg2png (svg_file h) "chat-icon-16.png" 16 16] |})).
    { intros e He. rewrite run_loop by done. unfold sizes.
      rewrite for_each_cons. unfold loop_body at 1, bind, svg2png.
      cbn [files after_checks]. fold (svg_path h). by rewrite He. }
    destruct n as [w|[] w d]; [|done|].
    + rewrite (Hfail IsADirectoryError); [done|].
      unfold read_file. by rewrite Hs.
    + rewrite (Hfail PermissionError); [done|].
      unfold read_file. by rewrite Hs.
Qed.

Lemma existence_check_admits_unreadable_source_witness :
  run sample_host dir_source_store
  = (Raised IsADirectoryError,
     {| files := dir_source_store;
        log := [EvImport "cairosvg"; EvExists "/opt/ext/tools/chat-icon.svg";
                EvSvg2png "/opt/ext/tools/chat-icon.svg" "chat-icon-16.png"
                          16 16] |})
  ∧ run sample_host unreadable_source_store
    = (Raised PermissionError,
       {| files := unreadable_source_store;
          log := [EvImport "cairosvg"; EvExists "/opt/ext/tools/chat-icon.svg";
                  EvSvg2png "/opt/ext/tools/chat-icon.svg" "chat-icon-16.png"
                            16 16] |}).
Proof.
  split.
  - apply (existence_check_admits_unreadable_source
             sample_host dir_source_store (Dir true));
      vm_compute; reflexivity.
  - apply (existence_check_admits_unreadable_source
             sample_host unreadable_source_store
             (File false false (Bytes "<svg/>")));
      vm_compute; reflexivity.
Defined.

(** ** What the log and the store of a run hold *)


Lemma EvExists_in_loop_events (h : host) (l : list Z) (p : string) :
  EvExists p ∉ loop_events h l.
Proof.
  induction l as [|size l IH]; [by intros ?%elem_of_nil|].
  cbn. intros [?|[?|?]%elem_of_cons]%elem_of_cons; done.
Qed.

Lemma svg2png_event_in_loop_events (h : host) (l : list Z) (size : Z) :
  svg2png_event h size ∈ loop_events h l → size ∈ l.
Proof.
  induction l as [|a l IH]; [by intros ?%elem_of_nil|].
  cbn. intros [Heq|[?|?]%elem_of_cons]%elem_of_cons; [|done|].
  - injection Heq as _ ->. apply list_elem_of_here.
  - by apply list_elem_of_further, IH.
Qed.




(** With both dependencies there, the first thing a run does after the
    import is the existence check on the source path. *)
Lemma log_starts_with_check (h : host) (s : store) :
  binding_installed h = true → native_engine h = true →
  ∃ rest, log (run h s).2
          = EvImport "cairosvg" :: EvExists (svg_file h) :: rest.
Proof.
  intros Hb Hn.
  destruct (run_cases h s)
    as [? Hrun|? ? Hrun|_ _ Hs Hrun|st _ _ Hs Hrun Hlog
       |pre size post e st1 st2 _ _ Hs Hsz Hpre Hlog Hrun Hlog2 Hf];
    try congruence; rewrite Hrun; cbn [snd log];
    try rewrite Hlog2; try rewrite Hlog; by eexists.
Qed.

(** The renderer calls of a run are the calls for an initial segment of
    the size list. *)
Lemma svg2png_calls_run (h : host) (s : store) :
  ∃ called rest,
    sizes = called ++ rest
    ∧ svg2png_calls (log (run h s).2) = svg2png_event h <$> called.
Proof.
  destruct (run_cases h s)
    as [Hb Hrun|Hb Hn Hrun|Hb Hn Hs Hrun|st Hb Hn Hs Hrun Hlog
       |pre size post e st1 st2 Hb Hn Hs Hsz Hpre Hlog Hrun Hlog2 Hf];
    rewrite Hrun; cbn [snd log].
  - exists [], sizes. split; [done|]. apply (svg2png_calls_prints _).
  - exists [], sizes. split; [done|]. apply (svg2png_calls_prints _).
  - exists [], sizes. split; [done|].
    by rewrite svg2png_calls_app, svg2png_calls_prints.
  - exists sizes, []. split; [by rewrite app_nil_r|].
    by rewrite Hlog, svg2png_calls_app, svg2png_calls_loop_events.
  - exists (pre ++ [size]), post. split; [by rewrite <- app_assoc|].
    rewrite Hlog2, Hlog, !svg2png_calls_app, svg2png_calls_loop_events.
    by rewrite fmap_app.
Qed.

(** Each iteration of a loop that completed read the source as it was
    before the loop, rendered it, wrote the image in full to an output
    path that could be opened before the loop started, and printed its
    progress line. *)
Lemma loop_done_inv (h : host) (l : list Z) (st st1 : process) :
  NoDup l →
  for_each l (loop_body h) st = (Normal tt, st1) →
  ∀ size, size ∈ l →
    ∃ src i r,
      read_file (files st) (svg_path h) = inr src
      ∧ url_fault h (svg_file h) = None
      ∧ render h src size size = inr i
      ∧ can_write (files st) (out_path h size) = true
      ∧ write_fault h (out_path h size) i = None
      ∧ stdout_encodes h (progress_line size) = true
      ∧ files st1 !! out_path h size = Some (File r true (Raster i)).
Proof.
  revert st. induction l as [|a l IH]; intros st Hnd Hrun size Hin;
    [by apply elem_of_nil in Hin|].
  apply NoDup_cons in Hnd as [Ha Hnd]. rewrite for_each_cons in Hrun.
  destruct (loop_body_cases h st a)
    as [(src & img & Hr & Hu & Hi & Hc & Hw & Hp & Hb)|(e & st2 & Hb & _)];
    rewrite Hb in Hrun; [|done].
  apply elem_of_cons in Hin as [->|Hin].
  - destruct (lookup_put_file_eq (files st) (out_path h a) (Raster img))
      as [r Hr'].
    exists src, img, r. repeat (split; [done|]).
    rewrite <- Hr'. apply (loop_frame h l _ _ _ _ Hrun).
    intros s' Hs' Heq. apply out_path_inj in Heq. by subst.
  - destruct (IH _ Hnd Hrun size Hin)
      as (src' & i & r & Hr' & Hu' & Hi' & Hc' & Hw' & Hp' & Hf).
    cbn [files] in Hr', Hc'.
    assert (Hne : out_path h a ≠ out_path h size).
    { intros Heq. apply out_path_inj in Heq. by subst. }
    rewrite read_file_put_file_ne in Hr'
      by apply not_eq_sym, svg_path_ne_out_path.
    apply can_write_put_file_inv in Hc'; [|done].
    by exists src', i, r.
Qed.


(** ** C5: where the source is looked for and where the outputs go *)

(** C5: for a script at [d/f] the source path is [d/chat-icon.svg], in
    the directory of the script, and when [d] is absolute the OS reads it
    the same from any working directory; every output path is
    [chat-icon-<size>.png] directly under the working directory. A run
    with both dependencies makes its existence check on that source path;
    every renderer call of every run is given that source path and the
    output name of a size of the list; a run changes the store nowhere
    but at those output paths; and when the calls succeed the renderer
    is called for every size and every output path holds its image. *)
Theorem source_beside_script_outputs_in_cwd (h : host) (d f : string) :
  script_file h = d +:+ "/" +:+ f →
  d ≠ "" → path.endswith_sep d = false → path.rfind_sep f = -1 →
  cwd h ≠ "" → path.endswith_sep (cwd h) = false →
  svg_file h = d +:+ "/chat-icon.svg"
  ∧ (path.isabs d = true → svg_path h = d +:+ "/chat-icon.svg")
  ∧ (∀ size, size ∈ sizes →
       out_path h size = cwd h +:+ "/" +:+ out_file size
       ∧ path.dirname (out_path h size) = cwd h)
  ∧ (∀ s, binding_installed h = true → native_engine h = true →
       ∃ rest, log (run h s).2
               = EvImport "cairosvg"
                 :: EvExists (d +:+ "/chat-icon.svg") :: rest)
  ∧ (∀ s e, e ∈ svg2png_calls (log (run h s).2) →
       ∃ size, size ∈ sizes
               ∧ e = EvSvg2png (d +:+ "/chat-icon.svg") (out_file size)
                               size size)
  ∧ (∀ s p, files (run h s).2 !! p ≠ s !! p →
       ∃ size, size ∈ sizes ∧ p = cwd h +:+ "/" +:+ out_file size)
  ∧ (∀ s src img,
       binding_installed h = true →
       native_engine h = true →
       url_fault h (svg_file h) = None →
       read_file s (svg_path h) = inr src →
       (∀ size, size ∈ sizes → render h src size size = inr (img size)) →
       (∀ size, size ∈ sizes → can_write s (out_path h size) = true) →
       (∀ size, size ∈ sizes →
          write_fault h (out_path h size) (img size) = None) →
       (∀ size, size ∈ sizes → stdout_encodes h (progress_line size) = true) →
       svg2png_calls (log (run h s).2)
       = (λ size, EvSvg2png (d +:+ "/chat-icon.svg") (out_file size) size size)
           <$> sizes
       ∧ ∀ size, size ∈ sizes →
           ∃ r, files (run h s).2 !! (cwd h +:+ "/" +:+ out_file size)
                = Some (File r true (Raster (img size)))).
Proof.
  intros Hscript Hd Hdend Hf Hc Hcend.
  assert (Hsvg : svg_file h = d +:+ "/chat-icon.svg").
  { unfold svg_file. rewrite Hscript.
    change (d +:+ "/" +:+ f) with (d +:+ String path.sep f).
    rewrite dirname_app by done. by rewrite join_rel. }
  assert (Hout : ∀ size, out_path h size = cwd h +:+ "/" +:+ out_file size).
  { intros size. unfold out_path. by rewrite resolve_rel. }
  assert (Hev : ∀ size, svg2png_event h size
                        = EvSvg2png (d +:+ "/chat-icon.svg") (out_file size)
                                    size size).
  { intros size. unfold svg2png_event. by rewrite Hsvg. }
  split; [done|]. split; [|split; [|split; [|split; [|split]]]].
  - intros Habs. unfold svg_path. rewrite Hsvg. apply resolve_abs.
    unfold path.isabs in *. by rewrite startswith_sep_app.
  - intros size Hin. split; [done|]. rewrite Hout. revert size Hin.
    apply elem_of_sizes;
      (change (cwd h +:+ "/" +:+ ?x) with (cwd h +:+ String path.sep x);
       by apply dirname_app).
  - intros s Hb Hn. rewrite <- Hsvg. by apply log_starts_with_check.
  - intros s e Hin.
    destruct (svg2png_calls_run h s) as (called & rest & Hsz & Hcalls).
    rewrite Hcalls in Hin.
    apply list_elem_of_fmap_1 in Hin as (size & -> & Hin).
    exists size. split; [|done]. rewrite Hsz. apply elem_of_app. by left.
  - intros s p Hne.
    destruct (decide (p ∈ out_path h <$> sizes)) as [Hin|Hnin].
    + apply list_elem_of_fmap_1 in Hin as (size & -> & Hin).
      exists size. by rewrite Hout.
    + destruct Hne. apply run_frame. intros size Hin ->.
      apply Hnin. by apply list_elem_of_fmap_2.
  - intros s src img Hb Hn Hu Hr Hi Hcw Hw Hp.
    rewrite (run_ok h img src s Hb Hn Hr Hu Hi Hcw Hw Hp). cbn [snd log files].
    split.
    + rewrite svg2png_calls_app, svg2png_calls_loop_events. cbn [app].
      apply list_fmap_ext. intros _ size _. apply Hev.
    + intros size Hin. rewrite <- Hout.
      by apply lookup_put_outputs_in; [apply NoDup_sizes|].
Qed.

Lemma source_beside_script_outputs_in_cwd_witness :
  svg_file sample_host = "/opt/ext/tools/chat-icon.svg"
  ∧ svg_path sample_host = "/opt/ext/tools/chat-icon.svg"
  ∧ (∃ rest, log (run sample_host sample_store).2
             = EvImport "cairosvg"
               :: EvExists "/opt/ext/tools/chat-icon.svg" :: rest)
  ∧ svg2png_calls (log (run sample_host sample_store).2)
    = [ EvSvg2png "/opt/ext/tools/chat-icon.svg" "chat-icon-16.png" 16 16;
        EvSvg2png "/opt/ext/tools/chat-icon.svg" "chat-icon-48.png" 48 48;
        EvSvg2png "/opt/ext/tools/chat-icon.svg" "chat-icon-128.png" 128 128;
        EvSvg2png "/opt/ext/tools/chat-icon.svg" "chat-icon-300.png" 300 300 ]
  ∧ ∃ r, files (run sample_host sample_store).2
           !! "/home/u/out/chat-icon-16.png"
         = Some (File r true (Raster (sample_image 16))).
Proof.
  destruct (source_beside_script_outputs_in_cwd sample_host
              "/opt/ext/tools" "convert-icons.py")
    as (Hsvg & Hpath & _ & Hcheck & _ & _ & Hrun).
  { reflexivity. }
  { discriminate. }
  { reflexivity. }
  { reflexivity. }
  { discriminate. }
  { reflexivity. }
  destruct (Hrun sample_store (Bytes "<svg/>") sample_image)
    as [Hcalls Hfiles].
  { reflexivity. }
  { reflexivity. }
  { vm_compute. reflexivity. }
  { vm_compute. reflexivity. }
  { apply elem_of_sizes; vm_compute; reflexivity. }
  { apply elem_of_sizes; vm_compute; reflexivity. }
  { apply elem_of_sizes; vm_compute; reflexivity. }
  { apply elem_of_sizes; vm_compute; reflexivity. }
  split; [exact Hsvg|]. split; [by apply Hpath|].
  split; [by apply Hcheck|]. split; [exact Hcalls|].
  apply (Hfiles 16). apply list_elem_of_here.
Defined.

(** ** C6: a failure inside the loop *)

(** C6: when the iterations for the sizes before [size] completed and the
    renderer call for [size] raises [e], the run ends there with [e]
    uncaught and status 1: the log stops at that call, no call is made for
    a later size, the store is the one the completed iterations left
    everywhere but at the output path of [size], and each output of the
    completed iterations is in it as they wrote it. *)
Theorem loop_failure_aborts_keeps_earlier_outputs
    (h : host) (s : store) (pre post : list Z) (size : Z)
    (st1 st2 : process) (e : exn) :
  binding_installed h = true →
  native_engine h = true →
  store_exists s (svg_path h) = true →
  sizes = pre ++ size :: post →
  for_each pre (loop_body h) (after_checks h s) = (Normal tt, st1) →
  svg2png h (svg_file h) (out_file size) size size st1 = (Raised e, st2) →
  run h s = (Raised e, st2)
  ∧ exit_status (run h s).1 = 1
  ∧ (∀ p, p ≠ out_path h size → files st2 !! p = files st1 !! p)
  ∧ log st2 = [EvImport "cairosvg"; EvExists (svg_file h)]
              ++ loop_events h pre ++ [svg2png_event h size]
  ∧ (∀ size', size' ∈ post → svg2png_event h size' ∉ log st2)
  ∧ (∀ size', size' ∈ pre →
       ∃ r i, files st1 !! out_path h size' = Some (File r true (Raster i))
              ∧ files st2 !! out_path h size' = Some (File r true (Raster i))).
Proof.
  intros Hb Hn Hs Hsz Hpre Hcall.
  pose proof NoDup_sizes as Hnd. rewrite Hsz in Hnd.
  apply NoDup_app in Hnd as (Hndpre & Hdisj & [Hsize _]%NoDup_cons).
  assert (log st2 = log st1 ++ [svg2png_event h size]
          ∧ ∀ p, p ≠ out_path h size →
                 files st2 !! p = files st1 !! p) as [Hlog2' Hframe].
  { destruct (svg2png_cases h st1 size)
      as [(? & ? & _ & _ & _ & _ & _ & Hok)
         |[[e' He']|(? & ? & ? & ? & _ & _ & _ & _ & _ & Hpart)]];
      [congruence| |].
    - rewrite He' in Hcall. by injection Hcall as <- <-.
    - rewrite Hpart in Hcall. injection Hcall as <- <-. split; [done|].
      intros p Hp. cbn [files]. by apply lookup_put_file_ne, not_eq_sym. }
  assert (Hlog1 : log st1 = [EvImport "cairosvg"; EvExists (svg_file h)]
                            ++ loop_events h pre).
  { destruct (loop_cases h pre (after_checks h s))
      as [(st' & Hl & Hlog)|(? & ? & ? & ? & ? & ? & _ & _ & _ & Hl & _)];
      [|congruence].
    rewrite Hpre in Hl. injection Hl as <-. exact Hlog. }
  assert (Hrun : run h s = (Raised e, st2)).
  { rewrite run_loop by done. rewrite Hsz, (for_each_app _ _ _ _ _ Hpre).
    rewrite for_each_cons. by rewrite (loop_body_raised h _ _ _ _ Hcall). }
  assert (Hlog2 : log st2 = [EvImport "cairosvg"; EvExists (svg_file h)]
                            ++ loop_events h pre ++ [svg2png_event h size]).
  { by rewrite Hlog2', Hlog1, <- app_assoc. }
  rewrite Hrun. split; [done|]. split; [done|].
  split; [done|]. split; [done|]. split.
  - intros size' Hin.
    rewrite Hlog2. intros [Hev|[Hev|Hev]%elem_of_app]%elem_of_app.
    + repeat (apply elem_of_cons in Hev as [?|Hev]; [done|]).
      by apply elem_of_nil in Hev.
    + apply svg2png_event_in_loop_events in Hev.
      apply (Hdisj size' Hev). by apply list_elem_of_further.
    + apply list_elem_of_singleton in Hev. injection Hev as _ ->. done.
  - intros size' Hin.
    destruct (loop_done_inv h pre _ _ Hndpre Hpre size' Hin)
      as (_ & i & r & _ & _ & _ & _ & _ & _ & Hfile).
    exists r, i. split; [done|]. rewrite Hframe; [done|].
    intros Heq. apply out_path_inj in Heq. subst.
    apply (Hdisj size Hin). apply list_elem_of_here.
Qed.

Lemma loop_failure_aborts_keeps_earlier_outputs_witness :
  run sample_host blocked_128_store
  = (Raised PermissionError,
     {| files := put_outputs sample_host sample_image blocked_128_store [16; 48];
        log := [EvImport "cairosvg"; EvExists "/opt/ext/tools/chat-icon.svg";
                EvSvg2png "/opt/ext/tools/chat-icon.svg" "chat-icon-16.png" 16 16;
                EvPrint "已轉換: chat-icon-16.png";
                EvSvg2png "/opt/ext/tools/chat-icon.svg" "chat-icon-48.png" 48 48;
                EvPrint "已轉換: chat-icon-48.png";
                EvSvg2png "/opt/ext/tools/chat-icon.svg" "chat-icon-128.png"
                          128 128] |})
  ∧ (run full_disk_host sample_store).1 = Raised OSError
  ∧ files (run full_disk_host sample_store).2 !! "/home/u/out/chat-icon-128.png"
    = Some (File true true (Bytes "PNG-head"))
  ∧ files (run full_disk_host sample_store).2 !! "/home/u/out/chat-icon-48.png"
    = Some (File true true (Raster (sample_image 48))).
Proof.
  split.
  - apply (loop_failure_aborts_keeps_earlier_outputs
             sample_host blocked_128_store [16; 48] [300] 128
             {| files := put_outputs sample_host sample_image blocked_128_store
                           [16; 48];
                log := [EvImport "cairosvg";
                        EvExists "/opt/ext/tools/chat-icon.svg";
                        EvSvg2png "/opt/ext/tools/chat-icon.svg"
                                  "chat-icon-16.png" 16 16;
                        EvPrint "已轉換: chat-icon-16.png";
                        EvSvg2png "/opt/ext/tools/chat-icon.svg"
                                  "chat-icon-48.png" 48 48;
                        EvPrint "已轉換: chat-icon-48.png"] |}).
    + reflexivity.
    + reflexivity.
    + vm_compute. reflexivity.
    + reflexivity.
    + vm_compute. reflexivity.
    + vm_compute. reflexivity.
  - destruct (loop_failure_aborts_keeps_earlier_outputs
                full_disk_host sample_store [16; 48] [300] 128
                {| files := put_outputs full_disk_host sample_image sample_store
                              [16; 48];
                   log := [EvImport "cairosvg";
                           EvExists "/opt/ext/tools/chat-icon.svg";
                           EvSvg2png "/opt/ext/tools/chat-icon.svg"
                                     "chat-icon-16.png" 16 16;
                           EvPrint "已轉換: chat-icon-16.png";
                           EvSvg2png "/opt/ext/tools/chat-icon.svg"
                                     "chat-icon-48.png" 48 48;
                           EvPrint "已轉換: chat-icon-48.png"] |}
                {| files := put_file
                              (put_outputs full_disk_host sample_image
                                 sample_store [16; 48])
                              "/home/u/out/chat-icon-128.png"
                              (Bytes "PNG-head");
                   log := [EvImport "cairosvg";
                           EvExists "/opt/ext/tools/chat-icon.svg";
                           EvSvg2png "/opt/ext/tools/chat-icon.svg"
                                     "chat-icon-16.png" 16 16;
                           EvPrint "已轉換: chat-icon-16.png";
                           EvSvg2png "/opt/ext/tools/chat-icon.svg"
                                     "chat-icon-48.png" 48 48;
                           EvPrint "已轉換: chat-icon-48.png";
                           EvSvg2png "/opt/ext/tools/chat-icon.svg"
                                     "chat-icon-128.png" 128 128] |}
                OSError)
      as (Hrun & _).
    { reflexivity. }
    { reflexivity. }
    { vm_compute. reflexivity. }
    { reflexivity. }
    { vm_compute. reflexivity. }
    { vm_compute. reflexivity. }
    rewrite Hrun. vm_compute. repeat split; reflexivity.
Defined.

(** ** C8: running twice *)




(** * Further properties of the script *)

(** ** X1: the exit status tells whether every icon was made *)


(** ** X2: when a run succeeds *)



(** ** X3: the source is never written *)

(** X3: whatever the host, the script path and the working directory, a
    run leaves the entry at the source path as it found it. *)
Theorem source_never_modified (h : host) (s : store) :
  files (run h s).2 !! svg_path h = s !! svg_path h.
Proof. apply run_frame. intros size _. apply svg_path_ne_out_path. Qed.

(** ** X4: what a run leaves alone *)

Lemma loop_keeps_protected (h : host) (l : list Z) (st st' : process)
    (o : outcome unit) (p : string) (n : node) :
  for_each l (loop_body h) st = (o, st') →
  files st !! p = Some n →
  (match n with Dir _ | File _ false _ => True | _ => False end) →
  files st' !! p = Some n.
Proof.
  revert st. induction l as [|a l IH]; intros st Hrun Hp Hn.
  - by injection Hrun as _ <-.
  - rewrite for_each_cons in Hrun.
    assert (Hne : can_write (files st) (out_path h a) = true →
                  out_path h a ≠ p).
    { intros Hc <-. unfold can_write in Hc. rewrite Hp in Hc.
      by destruct n as [|? []]. }
    destruct (loop_body_cases h st a)
      as [(src & img & _ & _ & _ & Hc & _ & _ & Hb)
         |(e & st2 & Hb & _ & [Hf|(d & Hc & Hf)])];
      rewrite Hb in Hrun.
    + apply (IH _ Hrun); [|done]. cbn [files].
      rewrite lookup_put_file_ne; [done|]. by apply Hne.
    + injection Hrun as _ <-. by rewrite Hf.
    + injection Hrun as _ <-. rewrite Hf.
      rewrite lookup_put_file_ne; [done|]. by apply Hne.
Qed.

Lemma loop_keeps_entries (h : host) (l : list Z) (st st' : process)
    (o : outcome unit) (p : string) :
  for_each l (loop_body h) st = (o, st') →
  is_Some (files st !! p) → is_Some (files st' !! p).
Proof.
  assert (Hput : ∀ s q d, is_Some (s !! p) → is_Some (put_file s q d !! p)).
  { intros s q d Hs. destruct (decide (q = p)) as [<-|Hne].
    - by destruct (lookup_put_file_eq s q d) as [r ->].
    - by rewrite lookup_put_file_ne. }
  revert st. induction l as [|a l IH]; intros st Hrun Hp.
  - by injection Hrun as _ <-.
  - rewrite for_each_cons in Hrun.
    destruct (loop_body_cases h st a)
      as [(src & img & _ & _ & _ & Hc & _ & _ & Hb)
         |(e & st2 & Hb & _ & [Hf|(d & Hc & Hf)])];
      rewrite Hb in Hrun.
    + apply (IH _ Hrun). cbn [files]. by apply Hput.
    + injection Hrun as _ <-. by rewrite Hf.
    + injection Hrun as _ <-. rewrite Hf. by apply Hput.
Qed.

(** X4: a run removes nothing from the store, and leaves every directory
    and every write-protected file exactly as it was. *)
Theorem run_keeps_entries (h : host) (s : store) (p : string) (n : node) :
  s !! p = Some n →
  is_Some (files (run h s).2 !! p)
  ∧ (match n with Dir _ | File _ false _ => True | _ => False end →
     files (run h s).2 !! p = Some n).
Proof.
  intros Hp.
  destruct (binding_installed h) eqn:Hb;
    [|rewrite run_no_binding by done; by cbn [snd files]].
  destruct (native_engine h) eqn:Hn;
    [|rewrite run_no_native by done; by cbn [snd files]].
  destruct (store_exists s (svg_path h)) eqn:Hs;
    [|rewrite run_no_source by done; by cbn [snd files]].
  rewrite run_loop by done.
  destruct (for_each sizes (loop_body h) (after_checks h s)) as [o st'] eqn:Hrun.
  cbn [snd]. split.
  - apply (loop_keeps_entries h _ _ _ _ _ Hrun). exists n. exact Hp.
  - by apply (loop_keeps_protected h _ _ _ _ _ _ Hrun).
Qed.

Lemma run_keeps_entries_witness :
  is_Some (files (run sample_host blocked_128_store).2
             !! "/home/u/out/chat-icon-128.png")
  ∧ files (run sample_host blocked_128_store).2
      !! "/home/u/out/chat-icon-128.png"
    = Some (File true false (Bytes "")).
Proof.
  destruct (run_keeps_entries sample_host blocked_128_store
              "/home/u/out/chat-icon-128.png" (File true false (Bytes "")))
    as [H1 H2]; [vm_compute; reflexivity|].
  split; [exact H1|]. apply H2. exact I.
Defined.

(** ** X5: the calls follow the size list *)



(** ** X6: a progress line is a true report *)



(** ** X7: a script named without a directory *)

(** X7: when [__file__] has no separator (the script was started by its
    bare name), the source path is the relative [chat-icon.svg], which
    the OS reads from the working directory: the source is looked for in
    the directory the outputs go to. When the script sits in the root
    directory, the source path is [/chat-icon.svg]. *)
Theorem bare_script_name_uses_cwd (h : host) :
  (path.rfind_sep (script_file h) = -1 →
     svg_file h = "chat-icon.svg"
     ∧ svg_path h = path.join (cwd h) "chat-icon.svg"
     ∧ (cwd h ≠ "" → path.endswith_sep (cwd h) = false →
        ∀ size, size ∈ sizes →
          path.dirname (out_path h size) = path.dirname (svg_path h)))
  ∧ (∀ f, path.rfind_sep f = -1 → script_file h = "/" +:+ f →
       svg_file h = "/chat-icon.svg" ∧ svg_path h = "/chat-icon.svg").
Proof.
  split.
  - intros Hf.
    assert (Hsvg : svg_file h = "chat-icon.svg").
    { unfold svg_file, path.dirname. rewrite Hf.
      change (Z.to_nat (-1 + 1)) with 0%nat.
      by destruct (script_file h). }
    split; [done|]. unfold svg_path. rewrite Hsvg. split; [done|].
    intros Hc Hcend. rewrite resolve_rel by done.
    rewrite dirname_app by done. unfold out_path.
    apply elem_of_sizes; (rewrite resolve_rel by done; by apply dirname_app).
  - intros f Hf Hscript.
    assert (Hsvg : svg_file h = "/chat-icon.svg").
    { unfold svg_file. rewrite Hscript.
      change ("/" +:+ f) with (String path.sep f).
      by rewrite dirname_root_file. }
    split; [done|]. unfold svg_path. by rewrite Hsvg.
Qed.

Lemma bare_script_name_uses_cwd_witness :
  svg_file bare_script_host = "chat-icon.svg"
  ∧ svg_path bare_script_host = "/opt/ext/tools/chat-icon.svg"
  ∧ exit_status (run bare_script_host tools_store).1 = 0.
Proof.
  destruct (bare_script_name_uses_cwd bare_script_host) as [H _].
  destruct H as (H1 & H2 & _); [reflexivity|].
  split; [exact H1|]. split; [rewrite H2; reflexivity|].
  vm_compute. reflexivity.
Defined.
